(** * Password strength meter and generator: model and properties

    Shallow embedding of [src/password_generator.py]:
    - [check_password_strength] (lines 6-95), the strength evaluator;
    - [generate_strong_password] (lines 97-127) and the special-free
      generation branch of [main] (lines 213-232), the generator;
    - the two result blocks of [main] (lines 159-200 and 234-243), as the
      sequence of Streamlit calls they make.

    Conventions of the model.
    - A Python [str] is a [string]; each [ascii] stands for one code point
      below 256.  On that range [\d] is exactly [0-9] and [str.lower] moves
      [A-Z] and the Latin-1 capitals to their small letters.  Beyond it
      [\d] also matches the decimal digits of other scripts, so no property
      below says that a password without [0-9] fails the digit check.  The
      generator only ever produces ASCII.
    - The score is a rational.  The source adds [1], [0.5] and [-0.5] to [0];
      every such value is a multiple of one half of magnitude at most 4 and
      is represented exactly by a binary float, so [Q] arithmetic agrees
      with the float arithmetic of the source.
    - The message and feedback literals are kept byte for byte.
    - The random source is a tape with one cell for each call of
      [random._randbelow]; [randbelow n] reduces the cell modulo [n], so
      every sequence of outcomes is that of some tape.  How much of the
      underlying generator one call uses up is not modelled.
    - [feedback] and [checks] are objects of the heap, built and filled by
      the call; [Store] has the body with them on the heap, [Evaluator] has
      the values they end up holding, and the two are proved to agree. *)

From Stdlib Require Import ZArith QArith Qround.
From Stdlib Require Import Strings.String Strings.Ascii List Lia.
From Stdlib Require Import Numbers.DecimalString.
From stdpp Require Import gmap strings list fin_maps.

Local Open Scope string_scope.

(** ** Characters *)

Module Chars.

Definition code (c : ascii) : N := N_of_ascii c.

(** [lo <= c <= hi] on code points, as a regex range [lo-hi]. *)
Definition in_range (lo hi c : ascii) : bool :=
  ((code lo <=? code c) && (code c <=? code hi))%N.

(** [string.ascii_lowercase], [string.ascii_uppercase], [string.digits]. *)
Definition ascii_lowercase : string := "abcdefghijklmnopqrstuvwxyz".
Definition ascii_uppercase : string := "ABCDEFGHIJKLMNOPQRSTUVWXYZ".
Definition digits : string := "0123456789".
Definition special_chars : string := "!@#$%^&*".

(** The character classes [[A-Z]], [[a-z]], [\d] and [[!@#$%^&*]].  On the
    code points below 256 [\d] is [0-9]; on a [str] it also matches the
    decimal digits of other scripts, which have no [ascii]. *)
Definition class_upper (c : ascii) : bool := in_range "A" "Z" c.
Definition class_lower (c : ascii) : bool := in_range "a" "z" c.
Definition class_digit (c : ascii) : bool := in_range "0" "9" c.
Definition class_special (c : ascii) : bool :=
  existsb (Ascii.eqb c) (list_ascii_of_string special_chars).

(** [.] without DOTALL: any character but the line feed. *)
Definition line_feed : ascii := "010"%char.
Definition class_dot (c : ascii) : bool := negb (Ascii.eqb c line_feed).

(** [str.lower] on one code point below 256: [A-Z], and the Latin-1
    capitals U+00C0..U+00DE without the multiplication sign U+00D7. *)
Definition lower_char (c : ascii) : ascii :=
  if class_upper c
     || (in_range "192"%char "222"%char c && negb (Ascii.eqb c "215"%char))
  then ascii_of_N (code c + 32)
  else c.

Fixpoint lower (s : string) : string :=
  match s with
  | EmptyString => EmptyString
  | String c s' => String (lower_char c) (lower s')
  end.

End Chars.

(** ** The regular expressions of the evaluator *)

Module Re.
Import Chars.

(** [re.search(r"[...]", s)] for a pattern that is one character class:
    some character of [s] is in the class. *)
Fixpoint search_class (cls : ascii -> bool) (s : string) : bool :=
  match s with
  | EmptyString => false
  | String c s' => cls c || search_class cls s'
  end.

(** The literal [lit] matches at the start of [s]. *)
Fixpoint match_literal (lit s : string) : bool :=
  match lit, s with
  | EmptyString, _ => true
  | String _ _, EmptyString => false
  | String a lit', String b s' => Ascii.eqb a b && match_literal lit' s'
  end.

(** [re.search(r"(a1|a2|...)", s)] for literal alternatives: at some
    position of [s] one of the alternatives matches. *)
Fixpoint search_alt (alts : list string) (s : string) : bool :=
  existsb (fun a => match_literal a s) alts
  || match s with
     | EmptyString => false
     | String _ s' => search_alt alts s'
     end.

(** [re.search(r"(.)\1{2,}", s)]: at some position a character matched by
    [.] is followed by at least two copies of itself. *)
Fixpoint search_repeat (s : string) : bool :=
  match s with
  | String a (String b (String c _) as t) =>
      (class_dot a && Ascii.eqb b a && Ascii.eqb c a) || search_repeat t
  | _ => false
  end.

End Re.

(** ** The evaluator: [check_password_strength] *)

Module Evaluator.
Import Chars Re.

(** A value of the [checks] dictionary: [True], ["Partial"] or [False]
    (the specification calls them Pass, Partial and Fail). *)
Inductive check_value : Set := CTrue | CPartial | CFalse.

(** The feedback and summary literals of the source. *)
Definition fb_length_12 : string :=
  "❌ Password should ideally be at least 12 characters long for better security.".
Definition fb_length_8 : string :=
  "❌ Password must be at least 8 characters long.".
Definition fb_case : string :=
  "❌ Include both uppercase and lowercase letters.".
Definition fb_digit : string :=
  "❌ Add at least one number (0-9).".
Definition fb_special : string :=
  "❌ Include at least one special character (!@#$%^&*).".
Definition fb_sequential : string :=
  "❌ Avoid sequential characters like 'abc', '123', etc.".
Definition fb_repeated : string :=
  "❌ Avoid repeating the same character more than twice.".
Definition fb_common : string :=
  "❌ This is a commonly used password and very insecure.".
Definition msg_strong : string :=
  "✅ Strong Password! Your password meets all security criteria.".
Definition msg_moderate : string :=
  "⚠️ Moderate Password - Consider improving using the suggestions below.".
Definition msg_weak : string :=
  "❌ Weak Password - Please improve it using the suggestions below.".

(** The alternatives of the sequential-characters pattern (line 55). *)
Definition sequential_alts : list string :=
  [ "abc"; "bcd"; "cde"; "def"; "efg"; "fgh"; "ghi"; "hij"; "ijk"; "jkl";
    "klm"; "lmn"; "mno"; "nop"; "opq"; "pqr"; "qrs"; "rst"; "stu"; "tuv";
    "uvw"; "vwx"; "wxy"; "xyz";
    "012"; "123"; "234"; "345"; "456"; "567"; "678"; "789"; "890" ].

Definition common_passwords : list string :=
  [ "password"; "123456"; "qwerty"; "admin"; "welcome"; "password123" ].

(** The three local variables the body threads through its checks. *)
Record acc : Type := Acc {
  score : Q;
  feedback : list string;
  checks : gmap string check_value
}.

(** [feedback.append(msg)] *)
Definition append_feedback (msg : string) (st : acc) : acc :=
  Acc (score st) (feedback st ++ [msg]) (checks st).

(** [score += d] *)
Definition add_score (d : Q) (st : acc) : acc :=
  Acc (score st + d) (feedback st) (checks st).

(** [score = q] *)
Definition set_score (q : Q) (st : acc) : acc :=
  Acc q (feedback st) (checks st).

(** [checks[k] = v] *)
Definition set_check (k : string) (v : check_value) (st : acc) : acc :=
  Acc (score st) (feedback st) (<[k := v]> (checks st)).

(** Lines 11-13. *)
Definition init : acc := Acc 0%Q [] ∅.

(** The conditions of the seven [if] statements. *)
Definition long_enough (n : nat) (password : string) : bool :=
  (n <=? String.length password)%nat.
Definition has_case (password : string) : bool :=
  search_class class_upper password && search_class class_lower password.
Definition has_digit (password : string) : bool :=
  search_class class_digit password.
Definition has_special (password : string) : bool :=
  search_class class_special password.
Definition has_sequential (password : string) : bool :=
  search_alt sequential_alts (lower password).
Definition has_repeated (password : string) : bool :=
  search_repeat password.
Definition is_common (password : string) : bool :=
  existsb (String.eqb (lower password)) common_passwords.

(** Lines 15-25. *)
Definition check_length (password : string) (st : acc) : acc :=
  if long_enough 12 password then
    set_check "length" CTrue (add_score 1 st)
  else if long_enough 8 password then
    append_feedback fb_length_12
      (set_check "length" CPartial (add_score (1 # 2) st))
  else
    append_feedback fb_length_8 (set_check "length" CFalse st).

(** Lines 27-33. *)
Definition check_case (password : string) (st : acc) : acc :=
  if has_case password then
    set_check "case" CTrue (add_score 1 st)
  else
    append_feedback fb_case (set_check "case" CFalse st).

(** Lines 35-41. *)
Definition check_digit (password : string) (st : acc) : acc :=
  if has_digit password then
    set_check "digit" CTrue (add_score 1 st)
  else
    append_feedback fb_digit (set_check "digit" CFalse st).

(** Lines 43-49. *)
Definition check_special (password : string) (st : acc) : acc :=
  if has_special password then
    set_check "special" CTrue (add_score 1 st)
  else
    append_feedback fb_special (set_check "special" CFalse st).

(** Lines 54-58. *)
Definition check_sequential (password : string) (st : acc) : acc :=
  if has_sequential password then
    set_check "no_patterns" CFalse
      (add_score (- (1 # 2)) (append_feedback fb_sequential st))
  else st.

(** Lines 60-64. *)
Definition check_repeated (password : string) (st : acc) : acc :=
  if has_repeated password then
    set_check "no_patterns" CFalse
      (add_score (- (1 # 2)) (append_feedback fb_repeated st))
  else st.

(** Lines 51-64: the two pattern checks after [checks["no_patterns"] = True]. *)
Definition check_patterns (password : string) (st : acc) : acc :=
  check_repeated password
    (check_sequential password (set_check "no_patterns" CTrue st)).

(** Lines 66-73. *)
Definition check_common (password : string) (st : acc) : acc :=
  if is_common password then
    set_check "not_common" CFalse (set_score 0 (append_feedback fb_common st))
  else
    set_check "not_common" CTrue st.

(** The accumulator after line 49, after line 64 and after line 73. *)
Definition after_composition (password : string) : acc :=
  check_special password
    (check_digit password (check_case password (check_length password init))).
Definition after_patterns (password : string) : acc :=
  check_patterns password (after_composition password).
Definition after_common (password : string) : acc :=
  check_common password (after_patterns password).

(** Line 76: [max(0, score)]. *)
Definition clamp_score (q : Q) : Q := if Qle_bool q 0 then 0 else q.

(** [int(x)] on a float: truncation towards zero. *)
Definition int (q : Q) : Z := Z.quot (Qnum q) (Zpos (Qden q)).

(** Line 79. *)
Definition normalize (q : Q) : Z := Z.min (int (q * 25)) 100.

(** Lines 81-93: (strength, message, color). *)
Definition rate (q : Q) : string * string * string :=
  if Qle_bool 4 q then ("Strong", msg_strong, "green")
  else if Qle_bool 3 q then ("Moderate", msg_moderate, "orange")
  else ("Weak", msg_weak, "red").

(** The score of line 76, from which lines 79 and 82-93 compute. *)
Definition raw_score (password : string) : Q :=
  clamp_score (score (after_common password)).

(** The returned tuple
    [(normalized_score, strength, message, feedback, checks, color)]. *)
Record evaluation : Type := Evaluation {
  ev_score : Z;
  ev_strength : string;
  ev_message : string;
  ev_feedback : list string;
  ev_checks : gmap string check_value;
  ev_color : string
}.

Definition check_password_strength (password : string) : evaluation :=
  let st := after_common password in
  let score := clamp_score (score st) in
  let normalized_score := normalize score in
  let '(strength, message, color) := rate score in
  Evaluation normalized_score strength message (feedback st) (checks st) color.

End Evaluator.

(** ** The random source *)

Module Random.

(** The source as a tape, read from position 0: one cell for each call of
    [random._randbelow]. *)
Definition tape : Type := nat -> nat.

(** A computation that reads the tape. *)
Definition M (A : Type) : Type := tape -> A * tape.

Definition ret {A : Type} (a : A) : M A := fun g => (a, g).

Definition bind {A B : Type} (m : M A) (k : A -> M B) : M B :=
  fun g => let (a, g') := m g in k a g'.

Notation "'let*' x ':=' m 'in' k" := (bind m (fun x => k))
  (at level 10, x name, m at level 100, k at level 200, only parsing).

(** The tape that holds the cells of [l] and 0 from then on. *)
Definition tape_of (l : list nat) : tape := fun k => nth k l 0.

(** [random._randbelow(n)]: some number below [n], the next cell of the
    tape reduced modulo [n].  The bits the call takes from the underlying
    generator are not modelled. *)
Definition randbelow (n : nat) : M nat :=
  fun g => (g 0 mod n, fun k => g (S k)).

(** [random.choice(seq)] is [seq[randbelow(len(seq))]].  The empty
    sequence, on which the source raises, is never passed. *)
Definition choice (seq : string) : M ascii :=
  let* i := randbelow (String.length seq) in
  ret (default "000"%char (String.get i seq)).

(** [x[i], x[j] = x[j], x[i]] *)
Definition swap (i j : nat) (x : list ascii) : list ascii :=
  match x !! i, x !! j with
  | Some a, Some b => <[j := a]> (<[i := b]> x)
  | _, _ => x
  end.

(** The loop of [random.shuffle(x)], from index [i] down to 1:
    [j = randbelow(i + 1); x[i], x[j] = x[j], x[i]]. *)
Fixpoint shuffle_from (i : nat) (x : list ascii) : M (list ascii) :=
  match i with
  | O => ret x
  | S i' =>
      let* j := randbelow (i + 1) in
      shuffle_from i' (swap i j x)
  end.

(** [random.shuffle(x)]: [for i in reversed(range(1, len(x)))]. *)
Definition shuffle (x : list ascii) : M (list ascii) :=
  shuffle_from (List.length x - 1) x.

End Random.

(** ** The generator *)

Module Generator.
Import Chars Random.

(** [password.extend(random.choice(all_chars) for _ in range(n))] *)
Fixpoint extend_choice (n : nat) (all_chars : string) (password : list ascii)
  : M (list ascii) :=
  match n with
  | O => ret password
  | S n' =>
      let* c := choice all_chars in
      extend_choice n' all_chars (password ++ [c])
  end.

(** Lines 97-127. *)
Definition generate_strong_password (length : Z) : M string :=
  let length := if (length <? 8)%Z then 12%Z else length in
  let lowercase := ascii_lowercase in
  let uppercase := ascii_uppercase in
  let digits := digits in
  let special_chars := special_chars in
  let* c1 := choice lowercase in
  let* c2 := choice uppercase in
  let* c3 := choice digits in
  let* c4 := choice special_chars in
  let password := [c1; c2; c3; c4] in
  let remaining_length := (length - 4)%Z in
  let all_chars := lowercase +:+ uppercase +:+ digits +:+ special_chars in
  let* password := extend_choice (Z.to_nat remaining_length) all_chars password in
  let* password := shuffle password in
  ret (string_of_list_ascii password).

(** Lines 217-232 of [main]: generation without special characters. *)
Definition generate_without_special (length : Z) : M string :=
  let lowercase := ascii_lowercase in
  let uppercase := ascii_uppercase in
  let digits := digits in
  let all_chars := lowercase +:+ uppercase +:+ digits in
  let* c1 := choice lowercase in
  let* c2 := choice uppercase in
  let* c3 := choice digits in
  let password := [c1; c2; c3] in
  let remaining_length := (length - 3)%Z in
  let* password := extend_choice (Z.to_nat remaining_length) all_chars password in
  let* password := shuffle password in
  ret (string_of_list_ascii password).

(** Lines 214-232 of [main]: the generator as the presentation layer
    calls it, from a length and the special-characters checkbox. *)
Definition generate (length : Z) (include_special : bool) : M string :=
  if include_special then generate_strong_password length
  else generate_without_special length.

(** Line 208: [st.slider("Password Length", min_value=8, max_value=30, ...)]
    returns an integer from 8 to 30. *)
Definition slider_value (length : Z) : bool :=
  (8 <=? length)%Z && (length <=? 30)%Z.

(** The lengths each branch can be run on.  [generate_strong_password] is a
    function of the module and takes any integer; the special-free branch
    is inline in [main] and only ever gets the value of the slider. *)
Definition receivable (length : Z) (include_special : bool) : bool :=
  include_special || slider_value length.

(** Lines 160 and 234 of [main]: a call of the evaluator in a session that
    also draws from the random source.  The body of the evaluator makes no
    call into [random], so the call hands the tape on as it got it. *)
Definition call_check_password_strength (password : string)
  : M Evaluator.evaluation :=
  ret (Evaluator.check_password_strength password).

(** Lines 213-234 of [main]: the generated password is evaluated at once. *)
Definition generate_and_check (length : Z) (include_special : bool)
  : M (string * Evaluator.evaluation) :=
  let* generated_password := generate length include_special in
  let* evaluation := call_check_password_strength generated_password in
  ret (generated_password, evaluation).

(** The length the generator is specified to produce: 12 for a request
    below 8, the request otherwise. *)
Definition clamped_length (length : Z) : Z :=
  if (length <? 8)%Z then 12%Z else length.

End Generator.

(** ** The result blocks of [main] *)

Module Display.
Import Chars Random Generator Evaluator.

(** The Streamlit calls the two blocks make, in the order they are made.
    Layout ([st.columns], [st.container]) carries no content and is left
    out. *)
Inductive st_call : Type :=
  | st_markdown (body : string) (unsafe_allow_html : bool)
  | st_progress (value : Z)
  | st_subheader (body : string)
  | st_balloons
  | st_success (body : string)
  | st_error (body : string)
  | st_info (body : string).

(** [str(n)] on an integer, as an f-string formats it. *)
Definition str (n : Z) : string := NilZero.string_of_int (Z.to_int n).

(** Lines 171-178: key, text and the default of [checks.get(key, default)],
    in the order the dictionary literal lists them. *)
Definition criteria : list (string * string * check_value) :=
  [ ("length", "Length (8+ chars, 12+ recommended)", CFalse);
    ("case", "Upper & lowercase letters", CFalse);
    ("digit", "Contains numbers", CFalse);
    ("special", "Contains special characters", CFalse);
    ("no_patterns", "No common patterns", CFalse);
    ("not_common", "Not a common password", CTrue) ].

(** Lines 171-178: [criteria_status], key to (text, status). *)
Definition criteria_status (checks : gmap string check_value)
  : list (string * (string * check_value)) :=
  List.map (fun '(key, text, dflt) => (key, (text, default dflt (checks !! key))))
           criteria.

(** Lines 182-187: the line of one criterion. *)
Definition criterion_line (item : string * check_value) : st_call :=
  match snd item with
  | CTrue => st_markdown ("✅ " +:+ fst item) false
  | CPartial => st_markdown ("⚠️ " +:+ fst item) false
  | CFalse => st_markdown ("❌ " +:+ fst item) false
  end.

(** Lines 181-187. *)
Definition criteria_lines (checks : gmap string check_value) : list st_call :=
  List.map (fun entry => criterion_line (snd entry)) (criteria_status checks).

(** Lines 190-193. *)
Definition suggestions (feedback : list string) : list st_call :=
  match feedback with
  | [] => []
  | _ :: _ =>
      st_subheader "Improvement Suggestions"
      :: List.map (fun suggestion => st_markdown suggestion false) feedback
  end.

Definition msg_excellent : string :=
  "Excellent password! Your digital security is in good hands.".
Definition msg_needs_improvement : string :=
  "This password needs significant improvement to be secure!".

(** Lines 196-200. *)
Definition closing_message (score : Z) : list st_call :=
  if (90 <=? score)%Z then [st_balloons; st_success msg_excellent]
  else if (score <=? 30)%Z then [st_error msg_needs_improvement]
  else [].

(** Lines 159-200: what the check tab shows for the text in the input
    field; nothing for the empty text. *)
Definition main_check_tab (password : string) : list st_call :=
  match password with
  | EmptyString => []
  | String _ _ =>
      let e := check_password_strength password in
      [ st_markdown ("### Password Strength: **:" +:+ ev_color e +:+ "["
                     +:+ ev_strength e +:+ "]**") false;
        st_progress (ev_score e);
        st_markdown ("**Score:** " +:+ str (ev_score e) +:+ "/100") false;
        st_subheader "Security Criteria" ]
      ++ criteria_lines (ev_checks e)
      ++ suggestions (ev_feedback e)
      ++ closing_message (ev_score e)
  end.

(** Lines 213-243: what the generate tab shows when the button is pressed,
    for the slider value and the checkbox. *)
Definition main_generate_tab (length : Z) (include_special : bool)
  : M (list st_call) :=
  let* generated_password := generate length include_special in
  let* e := call_check_password_strength generated_password in
  ret [ st_markdown "### Your Generated Password:" false;
        st_markdown
          ("<div style='font-family: monospace; font-size: 1.2em; word-break: break-all;'>"
           +:+ generated_password +:+ "</div>") true;
        st_markdown ("**Strength:** :" +:+ ev_color e +:+ "[" +:+ ev_strength e
                     +:+ "] (" +:+ str (ev_score e) +:+ "/100)") false;
        st_info "Click to select the password, then use Ctrl+C (or Cmd+C) to copy" ].

End Display.

(** ** The evaluator with its objects on the heap *)

Module Store.
Import Chars Re Evaluator Random Display.

(** The address of an object. *)
Definition ref : Type := nat.

(** The objects the evaluator builds: a list of messages, a dictionary of
    criteria. *)
Inductive object : Type :=
  | OList (items : list string)
  | ODict (entries : gmap string check_value).

(** What a call can read and change besides its own local names: the
    objects of the heap, the state of [random], and what Streamlit has been
    asked to show.  Numbers, strings and tuples cannot be changed and are
    kept as values; so is the list of line 67, which the body builds,
    only reads and does not return. *)
Record world : Type := World {
  heap : gmap ref object;
  random_state : tape;
  screen : list st_call
}.

(** A piece of the program: it runs in a world and leaves a world. *)
Definition P (A : Type) : Type := world -> A * world.

Definition pure {A : Type} (a : A) : P A := fun w => (a, w).

Definition seq {A B : Type} (m : P A) (k : A -> P B) : P B :=
  fun w => let (a, w') := m w in k a w'.

Notation "'let+' x ':=' m 'in' k" := (seq m (fun x => k))
  (at level 10, x name, m at level 100, k at level 200, only parsing).

(** A display such as [[]] or [{}]: a new object at an address not in use. *)
Definition new_object (o : object) : P ref :=
  fun w =>
    let r := fresh (dom (heap w)) in
    (r, World (<[r := o]> (heap w)) (random_state w) (screen w)).

(** [[]] and [{}]. *)
Definition new_list : P ref := new_object (OList []).
Definition new_dict : P ref := new_object (ODict ∅).

(** [l.append(x)]: the list at [l] is changed in place. *)
Definition append (l : ref) (x : string) : P () :=
  fun w =>
    match heap w !! l with
    | Some (OList items) =>
        (tt, World (<[l := OList (items ++ [x])]> (heap w))
                   (random_state w) (screen w))
    | _ => (tt, w)
    end.

(** [d[k] = v]: the dictionary at [d] is changed in place. *)
Definition setitem (d : ref) (k : string) (v : check_value) : P () :=
  fun w =>
    match heap w !! d with
    | Some (ODict entries) =>
        (tt, World (<[d := ODict (<[k := v]> entries)]> (heap w))
                   (random_state w) (screen w))
    | _ => (tt, w)
    end.

(** A call into [random]: it moves the state of the source. *)
Definition random {A : Type} (m : M A) : P A :=
  fun w =>
    let (a, g) := m (random_state w) in
    (a, World (heap w) g (screen w)).

(** A call into Streamlit: it adds to what is shown. *)
Definition show (c : st_call) : P () :=
  fun w => (tt, World (heap w) (random_state w) (screen w ++ [c])).

(** Lines 15-25. *)
Definition length_check (password : string) (feedback checks : ref) (score : Q)
  : P Q :=
  if long_enough 12 password then
    let score := (score + 1)%Q in
    let+ _ := setitem checks "length" CTrue in
    pure score
  else if long_enough 8 password then
    let score := (score + (1 # 2))%Q in
    let+ _ := setitem checks "length" CPartial in
    let+ _ := append feedback fb_length_12 in
    pure score
  else
    let+ _ := setitem checks "length" CFalse in
    let+ _ := append feedback fb_length_8 in
    pure score.

(** Lines 27-33. *)
Definition case_check (password : string) (feedback checks : ref) (score : Q)
  : P Q :=
  if has_case password then
    let score := (score + 1)%Q in
    let+ _ := setitem checks "case" CTrue in
    pure score
  else
    let+ _ := setitem checks "case" CFalse in
    let+ _ := append feedback fb_case in
    pure score.

(** Lines 35-41. *)
Definition digit_check (password : string) (feedback checks : ref) (score : Q)
  : P Q :=
  if has_digit password then
    let score := (score + 1)%Q in
    let+ _ := setitem checks "digit" CTrue in
    pure score
  else
    let+ _ := setitem checks "digit" CFalse in
    let+ _ := append feedback fb_digit in
    pure score.

(** Lines 43-49. *)
Definition special_check (password : string) (feedback checks : ref) (score : Q)
  : P Q :=
  if has_special password then
    let score := (score + 1)%Q in
    let+ _ := setitem checks "special" CTrue in
    pure score
  else
    let+ _ := setitem checks "special" CFalse in
    let+ _ := append feedback fb_special in
    pure score.

(** Lines 51-64. *)
Definition patterns_check (password : string) (feedback checks : ref) (score : Q)
  : P Q :=
  let+ _ := setitem checks "no_patterns" CTrue in
  let+ score :=
    if has_sequential password then
      let+ _ := append feedback fb_sequential in
      let score := (score + - (1 # 2))%Q in
      let+ _ := setitem checks "no_patterns" CFalse in
      pure score
    else pure score in
  if has_repeated password then
    let+ _ := append feedback fb_repeated in
    let score := (score + - (1 # 2))%Q in
    let+ _ := setitem checks "no_patterns" CFalse in
    pure score
  else pure score.

(** Lines 66-73. *)
Definition common_check (password : string) (feedback checks : ref) (score : Q)
  : P Q :=
  if is_common password then
    let+ _ := append feedback fb_common in
    let score := 0%Q in
    let+ _ := setitem checks "not_common" CFalse in
    pure score
  else
    let+ _ := setitem checks "not_common" CTrue in
    pure score.

(** The returned tuple: the list and the dictionary are returned by
    reference. *)
Record result : Type := Result {
  r_score : Z;
  r_strength : string;
  r_message : string;
  r_feedback : ref;
  r_checks : ref;
  r_color : string
}.

(** Lines 6-95, statement by statement. *)
Definition check_password_strength (password : string) : P result :=
  let score := 0%Q in
  let+ feedback := new_list in
  let+ checks := new_dict in
  let+ score := length_check password feedback checks score in
  let+ score := case_check password feedback checks score in
  let+ score := digit_check password feedback checks score in
  let+ score := special_check password feedback checks score in
  let+ score := patterns_check password feedback checks score in
  let+ score := common_check password feedback checks score in
  let score := clamp_score score in
  let normalized_score := normalize score in
  let '(strength, message, color) := rate score in
  pure (Result normalized_score strength message feedback checks color).

(** What the caller finds when it unpacks the tuple [r] in the world [w]. *)
Definition read (w : world) (r : result) : option evaluation :=
  match heap w !! r_feedback r, heap w !! r_checks r with
  | Some (OList feedback), Some (ODict checks) =>
      Some (Evaluation (r_score r) (r_strength r) (r_message r)
                       feedback checks (r_color r))
  | _, _ => None
  end.

(** The world [w] with the list and the dictionary of the accumulator [st]
    at [feedback] and [checks]. *)
Definition holding (w : world) (feedback checks : ref) (st : acc) : world :=
  World (<[checks := ODict (Evaluator.checks st)]>
           (<[feedback := OList (Evaluator.feedback st)]> (heap w)))
        (random_state w) (screen w).

End Store.

(** ** Closed forms of the evaluator's outputs *)

Module Closed.
Import Chars Evaluator.

(** The value stored under ["length"]. *)
Definition length_status (password : string) : check_value :=
  if long_enough 12 password then CTrue
  else if long_enough 8 password then CPartial
  else CFalse.

(** [True] or [False] as a stored value. *)
Definition status_of (b : bool) : check_value := if b then CTrue else CFalse.

(** The six keys of the criteria map. *)
Definition criteria_keys : list string :=
  [ "length"; "case"; "digit"; "special"; "no_patterns"; "not_common" ].

(** The criteria map, written in one piece. *)
Definition checks_closed_form (password : string) : gmap string check_value :=
  <["not_common" := status_of (negb (is_common password))]>
  (<["no_patterns" :=
       status_of (negb (has_sequential password || has_repeated password))]>
  (<["special" := status_of (has_special password)]>
  (<["digit" := status_of (has_digit password)]>
  (<["case" := status_of (has_case password)]>
  (<["length" := length_status password]> ∅))))).

(** One feedback message, present when [b] holds. *)
Definition when (b : bool) (msg : string) : list string :=
  if b then [msg] else [].

(** The feedback list, written in one piece. *)
Definition feedback_closed_form (password : string) : list string :=
  (when (negb (long_enough 12 password) && long_enough 8 password) fb_length_12
   ++ when (negb (long_enough 12 password) && negb (long_enough 8 password)) fb_length_8
   ++ when (negb (has_case password)) fb_case
   ++ when (negb (has_digit password)) fb_digit
   ++ when (negb (has_special password)) fb_special
   ++ when (has_sequential password) fb_sequential
   ++ when (has_repeated password) fb_repeated
   ++ when (is_common password) fb_common)%list.

(** The eight feedback messages in the order of the checks. *)
Definition feedback_order : list string :=
  [ fb_length_12; fb_length_8; fb_case; fb_digit; fb_special;
    fb_sequential; fb_repeated; fb_common ].

(** The characters the generator draws from: [all_chars] of line 120 with
    the special characters, of line 221 without. *)
Definition all_chars (include_special : bool) : string :=
  if include_special
  then ascii_lowercase +:+ ascii_uppercase +:+ digits +:+ special_chars
  else ascii_lowercase +:+ ascii_uppercase +:+ digits.

(** The opening and the closing tag of line 240. *)
Definition div_open : string :=
  "<div style='font-family: monospace; font-size: 1.2em; word-break: break-all;'>".
Definition div_close : string := "</div>".

(** The double quote, U+0022. *)
Definition double_quote : ascii := ascii_of_nat 34.

End Closed.

(** ** The vocabulary of the specification *)

Module Spec.
Import Chars.

(** [w] occurs in [s] as a contiguous substring. *)
Definition occurs (w s : string) : Prop :=
  exists pre post : string, s = pre +:+ w +:+ post.

(** Some character of [s] is in the class [cls]. *)
Definition contains (cls : ascii -> bool) (s : string) : Prop :=
  exists c : ascii, In c (list_ascii_of_string s) /\ cls c = true.

(** All windows of three consecutive characters of [s]. *)
Fixpoint windows3 (s : string) : list string :=
  match s with
  | String a (String b (String c _) as t) =>
      String a (String b (String c EmptyString)) :: windows3 t
  | _ => []
  end.

(** The sequential windows: three consecutive letters of the alphabet, or
    three consecutive digits of 0..9 followed by 0 again. *)
Definition sequential_windows : list string :=
  windows3 ascii_lowercase ++ windows3 (digits +:+ "0").

(** One character three times. *)
Definition run3 (c : ascii) : string :=
  String c (String c (String c EmptyString)).

(** Some character, whichever it is, occurs three times in a row. *)
Fixpoint has_run3 (s : string) : bool :=
  match s with
  | String a (String b (String c _) as t) =>
      (Ascii.eqb b a && Ascii.eqb c a) || has_run3 t
  | _ => false
  end.

End Spec.

Import Chars Re Evaluator Random Generator Display Closed Spec.

(** ** Case analysis on the seven conditions *)

Ltac unfold_checks :=
  unfold check_password_strength, raw_score, after_common, after_patterns,
    after_composition, check_common, check_patterns, check_repeated,
    check_sequential, check_special, check_digit, check_case, check_length.

Ltac case_checks p :=
  destruct (long_enough 12 p), (long_enough 8 p), (has_case p), (has_digit p),
    (has_special p), (has_sequential p), (has_repeated p), (is_common p).

(** * Properties *)

(** ** The evaluator and the generator on concrete inputs *)

(** ["Abc12345"]: 8 characters, both cases, a digit, no special character;
    the sequential pattern fires on ["abc"].  Raw score 0.5 + 1 + 1 - 0.5. *)
Example evaluate_Abc12345 :
  let e := check_password_strength "Abc12345" in
  has_sequential "Abc12345" = true /\
  (raw_score "Abc12345" == 2)%Q /\ ev_score e = 50%Z /\ ev_strength e = "Weak" /\
  ev_checks e !! "length" = Some CPartial /\
  ev_checks e !! "no_patterns" = Some CFalse /\
  ev_feedback e = [fb_length_12; fb_special; fb_sequential].
Proof. vm_compute. repeat split. Qed.

(** The empty password fails the four positive checks and is rated Weak
    with score 0; no pattern fires and it is not a common password. *)
Example evaluate_empty :
  let e := check_password_strength "" in
  ev_score e = 0%Z /\ ev_strength e = "Weak" /\ ev_color e = "red" /\
  ev_checks e !! "length" = Some CFalse /\ ev_checks e !! "case" = Some CFalse /\
  ev_checks e !! "digit" = Some CFalse /\ ev_checks e !! "special" = Some CFalse /\
  ev_checks e !! "no_patterns" = Some CTrue /\
  ev_checks e !! "not_common" = Some CTrue /\
  ev_feedback e = [fb_length_8; fb_case; fb_digit; fb_special].
Proof. vm_compute. repeat split. Qed.

(** A raw score of 3.5 is rated Moderate and shown as 87. *)
Example evaluate_moderate_87 :
  let e := check_password_strength "Tr0ub4d&3x" in
  (raw_score "Tr0ub4d&3x" == 7 # 2)%Q /\ ev_score e = 87%Z /\
  ev_strength e = "Moderate" /\ ev_color e = "orange".
Proof. vm_compute. repeat split. Qed.

(** [str.lower] on the Latin-1 capitals: U+00C0 goes to U+00E0, the
    multiplication sign U+00D7 and the sharp s U+00DF stay. *)
Example lower_latin1 :
  lower (String "192" (String "215" (String "223" "aZ")))
  = String "224" (String "215" (String "223" "az")).
Proof. reflexivity. Qed.

(** The shuffle on four elements with cells 1, 1, 0. *)
Example shuffle_abcd :
  fst (shuffle (list_ascii_of_string "abcd") (tape_of [1; 1; 0]))
  = list_ascii_of_string "cadb".
Proof. reflexivity. Qed.

(** Two runs of the generator. *)
Example generate_zero_tape :
  fst (generate 12 true (tape_of [])) = "A0!aaaaaaaaa".
Proof. vm_compute. reflexivity. Qed.

Example generate_5_true :
  fst (generate 5 true (tape_of [1; 2; 3; 4; 5; 6; 7; 8; 200; 10; 11; 12; 13; 14; 15; 16]))
  = "m3lfkh8big%C".
Proof. vm_compute. reflexivity. Qed.

(** Lines 213-234: the pair shown to the user is the generated password
    with its evaluation. *)
Lemma generate_and_check_run (length : Z) (include_special : bool) (g : tape) :
  fst (generate_and_check length include_special g)
  = (fst (generate length include_special g),
     check_password_strength (fst (generate length include_special g))).
Proof.
  unfold generate_and_check, bind, call_check_password_strength, ret.
  destruct (generate length include_special g). reflexivity.
Qed.

(** ** The regular expressions against the vocabulary of the specification *)

Lemma sequential_alts_windows : sequential_alts = sequential_windows.
Proof. reflexivity. Qed.

Lemma search_class_iff (cls : ascii -> bool) (s : string) :
  search_class cls s = true <-> contains cls s.
Proof.
  unfold contains. induction s as [|a s IH]; simpl.
  - split; [discriminate | intros (c & [] & _)].
  - rewrite orb_true_iff, IH. split.
    + intros [Ha | (c & Hin & Hc)]; [exists a | exists c]; auto.
    + intros (c & [<- | Hin] & Hc); [left | right; exists c]; auto.
Qed.

Lemma append_String (a : ascii) (s t : string) :
  String a s +:+ t = String a (s +:+ t).
Proof. reflexivity. Qed.

Lemma length_append (s t : string) :
  String.length (s +:+ t) = (String.length s + String.length t)%nat.
Proof.
  induction s as [|a s IH]; [reflexivity|].
  rewrite append_String. simpl. rewrite IH. reflexivity.
Qed.

Lemma match_literal_iff (a s : string) :
  match_literal a s = true <-> exists post : string, s = a +:+ post.
Proof.
  revert s. induction a as [|x a IH]; intros s; simpl.
  - split; [exists s; reflexivity | reflexivity].
  - destruct s as [|y s].
    + split; [discriminate | intros (post & Hs); discriminate].
    + rewrite andb_true_iff, Ascii.eqb_eq, IH. split.
      * intros (-> & post & ->). exists post. reflexivity.
      * intros (post & Hs). injection Hs as -> ->. eauto.
Qed.

Lemma occurs_here (w s : string) : match_literal w s = true -> occurs w s.
Proof.
  intros (post & ->)%match_literal_iff. exists EmptyString, post. reflexivity.
Qed.

Lemma occurs_later (w s : string) (a : ascii) :
  occurs w s -> occurs w (String a s).
Proof. intros (pre & post & ->). exists (String a pre), post. reflexivity. Qed.

Lemma occurs_inv (w s : string) (a : ascii) :
  occurs w (String a s) -> match_literal w (String a s) = true \/ occurs w s.
Proof.
  intros ([|b pre] & post & Hs).
  - left. apply match_literal_iff. exists post. exact Hs.
  - right. exists pre, post. rewrite append_String in Hs. congruence.
Qed.

Lemma occurs_empty (w : string) :
  occurs w EmptyString -> w = EmptyString.
Proof.
  intros ([|b pre] & post & Hs); [|discriminate].
  destruct w; [reflexivity | discriminate].
Qed.

Lemma search_alt_iff (alts : list string) (s : string) :
  search_alt alts s = true <-> exists w : string, In w alts /\ occurs w s.
Proof.
  induction s as [|a s IH]; simpl; rewrite orb_true_iff, existsb_exists.
  - split.
    + intros [(w & Hin & Hp) | Hf]; [|discriminate].
      exists w. split; [exact Hin | apply occurs_here, Hp].
    + intros (w & Hin & ->%occurs_empty). left. exists EmptyString. auto.
  - rewrite IH. split.
    + intros [(w & Hin & Hp) | (w & Hin & Ho)]; exists w; split; auto.
      * apply occurs_here, Hp.
      * apply occurs_later, Ho.
    + intros (w & Hin & [Hp | Ho]%occurs_inv); [left | right]; exists w; auto.
Qed.

Lemma match_run3 (c a b d : ascii) (s : string) :
  match_literal (run3 c) (String a (String b (String d s))) = true <->
  a = c /\ b = c /\ d = c.
Proof.
  unfold run3. simpl.
  rewrite andb_true_r, !andb_true_iff, !Ascii.eqb_eq. intuition congruence.
Qed.

Lemma occurs_run3_short (c : ascii) (s : string) :
  (String.length s < 3)%nat -> ~ occurs (run3 c) s.
Proof.
  intros Hlen (pre & post & ->). unfold run3 in Hlen.
  rewrite !length_append in Hlen. simpl in Hlen. lia.
Qed.

Lemma eqb_both (a b c : ascii) :
  Ascii.eqb b a && Ascii.eqb c a = true <-> b = a /\ c = a.
Proof. rewrite andb_true_iff, !Ascii.eqb_eq. reflexivity. Qed.

Lemma has_run3_iff (s : string) :
  has_run3 s = true <-> exists c : ascii, occurs (run3 c) s.
Proof.
  induction s as [|a s IH]; [|destruct s as [|b [|d s]]].
  1-3: split; [discriminate | intros (c & Ho)];
       exfalso; apply (@occurs_run3_short c) in Ho; [exact Ho | simpl; lia].
  change (has_run3 (String a (String b (String d s))))
    with ((Ascii.eqb b a && Ascii.eqb d a) || has_run3 (String b (String d s))).
  rewrite orb_true_iff, eqb_both, IH. split.
  - intros [[-> ->] | (c & Ho)].
    + exists a. apply occurs_here, match_run3. auto.
    + exists c. apply occurs_later, Ho.
  - intros (c & [(-> & -> & ->)%match_run3 | Ho]%occurs_inv); eauto.
Qed.

Lemma search_repeat_iff (s : string) :
  search_repeat s = true <->
  exists c : ascii, c <> line_feed /\ occurs (run3 c) s.
Proof.
  induction s as [|a s IH]; [|destruct s as [|b [|d s]]].
  1-3: split; [discriminate | intros (c & _ & Ho)];
       exfalso; apply (@occurs_run3_short c) in Ho; [exact Ho | simpl; lia].
  change (search_repeat (String a (String b (String d s))))
    with ((class_dot a && Ascii.eqb b a && Ascii.eqb d a)
          || search_repeat (String b (String d s))).
  rewrite orb_true_iff, <- andb_assoc, andb_true_iff, eqb_both, IH.
  unfold class_dot. rewrite negb_true_iff, Ascii.eqb_neq. split.
  - intros [(Hlf & -> & ->) | (c & Hc & Ho)].
    + exists a. split; [exact Hlf | apply occurs_here, match_run3; auto].
    + exists c. split; [exact Hc | apply occurs_later, Ho].
  - intros (c & Hc & [(-> & -> & ->)%match_run3 | Ho]%occurs_inv); eauto.
Qed.

(** The pattern of the source finds no run that [has_run3] does not. *)
Lemma search_repeat_run3 (s : string) :
  search_repeat s = true -> has_run3 s = true.
Proof.
  rewrite search_repeat_iff, has_run3_iff. intros (c & _ & Ho). eauto.
Qed.

(** Without line feeds the two agree. *)
Lemma search_repeat_no_line_feed (s : string) :
  ~ In line_feed (list_ascii_of_string s) -> search_repeat s = has_run3 s.
Proof.
  intros Hlf. apply eq_true_iff_eq.
  rewrite search_repeat_iff, has_run3_iff.
  split; intros (c & H); [destruct H as [_ Ho]; eauto|].
  exists c. split; [|exact H].
  intros ->. apply Hlf. destruct H as (pre & post & ->).
  rewrite <- (string_of_list_ascii_of_string pre).
  clear Hlf. induction pre as [|x pre IH]; simpl; auto.
Qed.

(** ** The conditions of the evaluator against the vocabulary *)

Lemma long_enough_iff (n : nat) (password : string) :
  long_enough n password = true <-> (n <= String.length password)%nat.
Proof. apply Nat.leb_le. Qed.

Lemma has_case_iff (password : string) :
  has_case password = true <->
  contains class_upper password /\ contains class_lower password.
Proof. unfold has_case. rewrite andb_true_iff, !search_class_iff. reflexivity. Qed.

Lemma has_sequential_iff (password : string) :
  has_sequential password = true <->
  exists w : string, In w sequential_windows /\ occurs w (lower password).
Proof. unfold has_sequential. rewrite sequential_alts_windows. apply search_alt_iff. Qed.

Lemma has_repeated_iff (password : string) :
  has_repeated password = true <->
  exists c : ascii, c <> line_feed /\ occurs (run3 c) password.
Proof. apply search_repeat_iff. Qed.

Lemma is_common_iff (password : string) :
  is_common password = true <-> In (lower password) common_passwords.
Proof.
  unfold is_common. rewrite existsb_exists. split.
  - intros (w & Hin & ->%String.eqb_eq). exact Hin.
  - intros Hin. exists (lower password). split; [exact Hin | apply String.eqb_refl].
Qed.

Lemma not_true_iff (b : bool) (P : Prop) : (b = true <-> P) -> ~ P -> b = false.
Proof. intros HP Hn. destruct b; [exfalso; apply Hn, HP|]; reflexivity. Qed.

(** ** The score *)

Lemma clamp_score_nonneg (q : Q) : (0 <= clamp_score q)%Q.
Proof.
  unfold clamp_score. destruct (Qle_bool q 0) eqn:E; [apply Qle_refl|].
  apply Qlt_le_weak, Qnot_le_lt. rewrite <- Qle_bool_iff, E. discriminate.
Qed.

Lemma int_floor (q : Q) : (0 <= q)%Q -> int q = Qfloor q.
Proof.
  destruct q as [n d]. unfold Qle, int, Qfloor. simpl. intros Hn.
  apply Z.quot_div_nonneg; lia.
Qed.

Lemma rate_cases (q : Q) :
  ((4 <= q)%Q -> rate q = ("Strong", msg_strong, "green")) /\
  ((3 <= q)%Q /\ (q < 4)%Q -> rate q = ("Moderate", msg_moderate, "orange")) /\
  ((q < 3)%Q -> rate q = ("Weak", msg_weak, "red")).
Proof.
  unfold rate.
  destruct (Qle_bool 4 q) eqn:E4; [|destruct (Qle_bool 3 q) eqn:E3].
  - apply Qle_bool_iff in E4. split; [intros _; reflexivity | split].
    + intros [_ H]. exfalso. exact (Qlt_not_le _ _ H E4).
    + intros H. exfalso. apply (Qlt_not_le _ _ H).
      apply Qle_trans with 4%Q; [easy | exact E4].
  - apply Qle_bool_iff in E3. split; [|split; [intros _; reflexivity|]].
    + intros H. apply Qle_bool_iff in H. congruence.
    + intros H. exfalso. exact (Qlt_not_le _ _ H E3).
  - split; [|split; [|intros _; reflexivity]].
    + intros H. apply Qle_bool_iff in H. congruence.
    + intros [H _]. apply Qle_bool_iff in H. congruence.
Qed.

(** C4: the strength, its colour and its message are decided by the score
    of line 76, before normalisation: at least 4 gives Strong, green and the
    success message; otherwise at least 3 gives Moderate, orange and the
    warning message; otherwise Weak, red and the error message. *)
Theorem rating_from_raw_score (password : string) :
  let e := check_password_strength password in
  let r := raw_score password in
  ((4 <= r)%Q ->
     ev_strength e = "Strong" /\ ev_color e = "green" /\ ev_message e = msg_strong) /\
  ((3 <= r)%Q /\ (r < 4)%Q ->
     ev_strength e = "Moderate" /\ ev_color e = "orange" /\ ev_message e = msg_moderate) /\
  ((r < 3)%Q ->
     ev_strength e = "Weak" /\ ev_color e = "red" /\ ev_message e = msg_weak).
Proof.
  intros e r. destruct (rate_cases r) as (H4 & H3 & H0).
  assert (He : rate r = (ev_strength e, ev_message e, ev_color e)).
  { unfold e, r, check_password_strength, raw_score.
    destruct (rate _) as [[? ?] ?]. reflexivity. }
  split; [|split]; intros H;
    [apply H4 in H | apply H3 in H | apply H0 in H];
    rewrite He in H; injection H as -> -> ->; auto.
Qed.

(** The three ratings all occur: scores 4, 3.5 and 2. *)
Lemma rating_from_raw_score_witness :
  ev_strength (check_password_strength "Tr0ub4dor&3xQz") = "Strong" /\
  ev_strength (check_password_strength "Tr0ub4d&3x") = "Moderate" /\
  ev_strength (check_password_strength "Abc12345") = "Weak".
Proof.
  split; [|split].
  - apply (rating_from_raw_score "Tr0ub4dor&3xQz"). vm_compute. discriminate.
  - apply (rating_from_raw_score "Tr0ub4d&3x"). vm_compute. split; [discriminate | reflexivity].
  - apply (rating_from_raw_score "Abc12345"). vm_compute. reflexivity.
Defined.

(** C7: the returned score is [min(floor(raw * 25), 100)] of the clamped
    raw score, and lies between 0 and 100. *)
Theorem normalized_score_formula (password : string) :
  let e := check_password_strength password in
  ev_score e = Z.min (Qfloor (raw_score password * 25)) 100 /\
  (0 <= ev_score e <= 100)%Z.
Proof.
  intros e.
  assert (He : ev_score e = normalize (raw_score password)).
  { unfold e, check_password_strength, raw_score.
    destruct (rate _) as [[? ?] ?]. reflexivity. }
  assert (Hr : (0 <= raw_score password * 25)%Q).
  { apply Qmult_le_0_compat; [apply clamp_score_nonneg | easy]. }
  rewrite He. unfold normalize. rewrite (int_floor _ Hr). split; [reflexivity|].
  assert (0 <= Qfloor (raw_score password * 25))%Z.
  { change 0%Z with (Qfloor 0). apply Qfloor_resp_le, Hr. }
  lia.
Qed.

(** ** The returned tuple in terms of the accumulator *)

Lemma ev_feedback_eq (password : string) :
  ev_feedback (check_password_strength password) = feedback (after_common password).
Proof. unfold check_password_strength. destruct (rate _) as [[? ?] ?]. reflexivity. Qed.

Lemma ev_checks_eq (password : string) :
  ev_checks (check_password_strength password) = checks (after_common password).
Proof. unfold check_password_strength. destruct (rate _) as [[? ?] ?]. reflexivity. Qed.

Lemma ev_score_eq (password : string) :
  ev_score (check_password_strength password) = normalize (raw_score password).
Proof. unfold check_password_strength. destruct (rate _) as [[? ?] ?]. reflexivity. Qed.

Lemma ev_rate_eq (password : string) :
  let e := check_password_strength password in
  (ev_strength e, ev_message e, ev_color e) = rate (raw_score password).
Proof.
  unfold check_password_strength, raw_score. destruct (rate _) as [[? ?] ?]. reflexivity.
Qed.

(** ** The common-password override *)

Lemma check_common_hit (password : string) (st : acc) :
  is_common password = true ->
  check_common password st =
  Acc 0 (feedback st ++ [fb_common]) (<["not_common" := CFalse]> (checks st)).
Proof. unfold check_common. intros ->. reflexivity. Qed.

Lemma check_common_miss (password : string) (st : acc) :
  is_common password = false ->
  check_common password st =
  Acc (score st) (feedback st) (<["not_common" := CTrue]> (checks st)).
Proof. unfold check_common. intros ->. reflexivity. Qed.

(** C2: when the lower-cased password is one of the six common passwords,
    the score is set to 0 whatever the accumulator held, [not_common] is
    False, the common-password feedback is appended last, the returned score
    is 0 and the strength Weak; for every other password [not_common] is
    True. *)
Theorem common_password_override (password : string) :
  let e := check_password_strength password in
  (In (lower password) common_passwords ->
     (forall st : acc,
        score (check_common password st) = 0%Q /\
        feedback (check_common password st) = (feedback st ++ [fb_common])%list) /\
     raw_score password = 0%Q /\
     ev_checks e !! "not_common" = Some CFalse /\
     ev_feedback e = (feedback (after_patterns password) ++ [fb_common])%list /\
     ev_score e = 0%Z /\
     ev_strength e = "Weak") /\
  (~ In (lower password) common_passwords ->
     ev_checks e !! "not_common" = Some CTrue).
Proof.
  intros e. split.
  - intros Hc%is_common_iff.
    assert (Hr : raw_score password = 0%Q).
    { unfold raw_score, after_common. rewrite (check_common_hit _ _ Hc). reflexivity. }
    pose proof (ev_rate_eq password) as Hrate. fold e in Hrate.
    cbv zeta in Hrate. rewrite Hr in Hrate.
    change (rate 0) with ("Weak", msg_weak, "red") in Hrate.
    unfold e. rewrite ev_checks_eq, ev_feedback_eq, ev_score_eq, Hr.
    unfold after_common. rewrite (check_common_hit _ _ Hc).
    cbn [score feedback checks].
    split; [|split; [|split; [|split; [|split]]]].
    + intros st. rewrite (check_common_hit _ _ Hc). split; reflexivity.
    + reflexivity.
    + apply lookup_insert_eq.
    + reflexivity.
    + reflexivity.
    + fold e. congruence.
  - intros Hc. apply (not_true_iff _ _ (is_common_iff password)) in Hc.
    unfold e. rewrite ev_checks_eq. unfold after_common.
    rewrite (check_common_miss _ _ Hc). cbn [checks]. apply lookup_insert_eq.
Qed.

(** The exact input ["password"], and a password that is not common. *)
Lemma common_password_override_witness :
  (raw_score "password" = 0%Q /\
   ev_checks (check_password_strength "password") !! "not_common" = Some CFalse /\
   ev_score (check_password_strength "password") = 0%Z /\
   ev_strength (check_password_strength "password") = "Weak") /\
  ev_checks (check_password_strength "correct horse") !! "not_common" = Some CTrue.
Proof.
  split.
  - assert (Hin : In (lower "password") common_passwords) by (left; reflexivity).
    destruct (proj1 (common_password_override "password") Hin)
      as (_ & Hr & Hck & _ & Hs & Hw).
    auto.
  - apply (proj2 (common_password_override "correct horse")).
    intros Hin. vm_compute in Hin. intuition discriminate.
Defined.

(** ** The positive checks and the penalties *)

(** What lines 51-64 do to any accumulator, by the two conditions. *)
Lemma check_patterns_effect (password : string) (st : acc) :
  let st' := check_patterns password st in
  let seq := has_sequential password in
  let rep := has_repeated password in
  (score st' ==
     score st - (if seq then 1 # 2 else 0) - (if rep then 1 # 2 else 0))%Q /\
  feedback st' =
    (feedback st ++ (if seq then [fb_sequential] else [])
                 ++ (if rep then [fb_repeated] else []))%list /\
  checks st' !! "no_patterns" = Some (if seq || rep then CFalse else CTrue).
Proof.
  unfold check_patterns, check_repeated, check_sequential.
  destruct (has_sequential password), (has_repeated password); simpl;
    rewrite ?app_nil_r, <- ?app_assoc; repeat split;
    try (rewrite ?lookup_insert_eq; reflexivity); ring.
Qed.

(** The claim of C6 holds on every password without a line feed. *)
Lemma check_patterns_no_line_feed (password : string) (st : acc) :
  ~ In line_feed (list_ascii_of_string password) ->
  let st' := check_patterns password st in
  let seq := has_sequential password in
  let rep := has_run3 password in
  (score st' ==
     score st - (if seq then 1 # 2 else 0) - (if rep then 1 # 2 else 0))%Q /\
  feedback st' =
    (feedback st ++ (if seq then [fb_sequential] else [])
                 ++ (if rep then [fb_repeated] else []))%list /\
  checks st' !! "no_patterns" = Some (if seq || rep then CFalse else CTrue).
Proof.
  intros Hlf. simpl. rewrite <- (search_repeat_no_line_feed _ Hlf).
  apply check_patterns_effect.
Qed.

(** C6, at a password with three line feeds in a row: a character occurs
    three times consecutively, yet lines 60-64 take no half point off, add
    no feedback and leave [no_patterns] at True. *)
Theorem repeated_line_feed_not_penalised :
  let password :=
    "Pw" +:+ String line_feed (String line_feed (String line_feed "x7!")) in
  occurs (run3 line_feed) password /\
  has_run3 password = true /\
  has_repeated password = false /\
  (score (after_patterns password) == score (after_composition password))%Q /\
  feedback (after_patterns password) = feedback (after_composition password) /\
  checks (after_patterns password) !! "no_patterns" = Some CTrue /\
  ev_checks (check_password_strength password) !! "no_patterns" = Some CTrue.
Proof.
  split; [exists "Pw", "x7!"; reflexivity|].
  vm_compute. repeat split; reflexivity.
Qed.

(** ** A password that meets every criterion *)

(** C3: a password of at least 12 characters with an uppercase letter, a
    lowercase letter, a digit and a special character, with no character
    three times in a row, no sequential window in its lower-casing, and
    whose lower-casing is not a common password, has raw score 4, returned
    score 100 and strength Strong. *)
Theorem all_criteria_strong (password : string) :
  (12 <= String.length password)%nat ->
  contains class_upper password ->
  contains class_lower password ->
  contains class_digit password ->
  contains class_special password ->
  (forall c : ascii, ~ occurs (run3 c) password) ->
  (forall w : string, In w sequential_windows -> ~ occurs w (lower password)) ->
  ~ In (lower password) common_passwords ->
  let e := check_password_strength password in
  (raw_score password == 4)%Q /\ ev_score e = 100%Z /\ ev_strength e = "Strong".
Proof.
  intros Hlen Hup Hlo Hdi Hsp Hrep Hseq Hcom e.
  assert (H12 : long_enough 12 password = true) by (apply long_enough_iff, Hlen).
  assert (Hcase : has_case password = true) by (apply has_case_iff; auto).
  assert (Hdigit : has_digit password = true) by (apply search_class_iff, Hdi).
  assert (Hspecial : has_special password = true) by (apply search_class_iff, Hsp).
  assert (Hs : has_sequential password = false).
  { apply (not_true_iff _ _ (has_sequential_iff password)).
    intros (w & Hin & Ho). exact (Hseq w Hin Ho). }
  assert (Hr : has_repeated password = false).
  { apply (not_true_iff _ _ (has_repeated_iff password)).
    intros (c & _ & Ho). exact (Hrep c Ho). }
  assert (Hc : is_common password = false)
    by (apply (not_true_iff _ _ (is_common_iff password)), Hcom).
  assert (Hraw : raw_score password = (0 + 1 + 1 + 1 + 1)%Q).
  { unfold_checks. rewrite H12, Hcase, Hdigit, Hspecial, Hs, Hr, Hc. reflexivity. }
  pose proof (ev_rate_eq password) as Hrate. fold e in Hrate.
  cbv zeta in Hrate. rewrite Hraw in Hrate.
  change (rate (0 + 1 + 1 + 1 + 1)) with ("Strong", msg_strong, "green") in Hrate.
  split; [rewrite Hraw; reflexivity|].
  split; [unfold e; rewrite ev_score_eq, Hraw; reflexivity | congruence].
Qed.

Lemma all_criteria_strong_witness :
  let e := check_password_strength "Tr0ub4dor&3xQz" in
  (raw_score "Tr0ub4dor&3xQz" == 4)%Q /\ ev_score e = 100%Z /\ ev_strength e = "Strong".
Proof.
  apply (all_criteria_strong "Tr0ub4dor&3xQz").
  - simpl. lia.
  - apply search_class_iff. reflexivity.
  - apply search_class_iff. reflexivity.
  - apply search_class_iff. reflexivity.
  - apply search_class_iff. reflexivity.
  - intros c Ho.
    assert (H : has_run3 "Tr0ub4dor&3xQz" = true) by (apply has_run3_iff; eauto).
    vm_compute in H. discriminate H.
  - intros w Hin Ho.
    assert (H : has_sequential "Tr0ub4dor&3xQz" = true)
      by (apply has_sequential_iff; eauto).
    vm_compute in H. discriminate H.
  - intros Hin.
    apply is_common_iff in Hin. vm_compute in Hin. discriminate Hin.
Defined.

(** ** Strong, a full score and no feedback coincide *)

(** C10: for every password the three conditions "the strength is Strong",
    "the returned score is 100" and "the feedback list is empty" are
    equivalent. *)
Theorem strong_iff_100_iff_no_feedback (password : string) :
  let e := check_password_strength password in
  (ev_strength e = "Strong" <-> ev_score e = 100%Z) /\
  (ev_score e = 100%Z <-> ev_feedback e = []).
Proof.
  intros e.
  pose proof (ev_rate_eq password) as Hrate. fold e in Hrate. cbv zeta in Hrate.
  assert (Hs : ev_strength e = fst (fst (rate (raw_score password))))
    by (rewrite <- Hrate; reflexivity).
  rewrite Hs. unfold e. rewrite ev_score_eq, ev_feedback_eq. clear.
  unfold_checks. case_checks password; vm_compute;
    (split; split; intros H; first [discriminate H | reflexivity]).
Qed.

(** ** The evaluator on the heap: purity *)

(** A run in a world with no objects: the list goes to address 0, the
    dictionary to address 1, and the random source is where it was. *)
Example store_run :
  let c := Store.check_password_strength "Abc12345"
             (Store.World ∅ (tape_of [7]) []) in
  fst c = Store.Result 50 "Weak" msg_weak 0%nat 1%nat "red" /\
  Store.heap (snd c) !! 0%nat
    = Some (Store.OList [fb_length_12; fb_special; fb_sequential]) /\
  Store.random_state (snd c) 0%nat = 7%nat.
Proof. vm_compute. repeat split. Qed.

Lemma setitem_holding (w : Store.world) (rf rc : Store.ref) (st : acc)
    (k : string) (v : check_value) :
  Store.setitem rc k v (Store.holding w rf rc st)
  = (tt, Store.holding w rf rc (set_check k v st)).
Proof.
  unfold Store.setitem, Store.holding. cbn [Store.heap Store.random_state Store.screen].
  rewrite lookup_insert_eq. cbn [checks feedback set_check].
  rewrite insert_insert_eq. reflexivity.
Qed.

Lemma append_holding (w : Store.world) (rf rc : Store.ref) (st : acc)
    (msg : string) :
  rf <> rc ->
  Store.append rf msg (Store.holding w rf rc st)
  = (tt, Store.holding w rf rc (append_feedback msg st)).
Proof.
  intros Hne. unfold Store.append, Store.holding.
  cbn [Store.heap Store.random_state Store.screen].
  rewrite lookup_insert_ne by congruence. rewrite lookup_insert_eq.
  cbn [checks feedback append_feedback].
  rewrite (insert_insert_ne _ rf rc) by exact Hne.
  rewrite insert_insert_eq. reflexivity.
Qed.

Lemma seq_run {A B : Type} (m : Store.P A) (k : A -> Store.P B) (w : Store.world)
    (a : A) (w' : Store.world) :
  m w = (a, w') -> Store.seq m k w = k a w'.
Proof. intros H. unfold Store.seq. rewrite H. reflexivity. Qed.

Ltac run_step Hne :=
  first [ erewrite seq_run by apply setitem_holding
        | erewrite seq_run by (apply append_holding; exact Hne) ].

Lemma length_check_holding (password : string) (w : Store.world)
    (rf rc : Store.ref) (st : acc) :
  rf <> rc ->
  Store.length_check password rf rc (score st) (Store.holding w rf rc st)
  = (score (check_length password st),
     Store.holding w rf rc (check_length password st)).
Proof.
  intros Hne. unfold Store.length_check, check_length.
  destruct (long_enough 12 password); [|destruct (long_enough 8 password)];
    cbv zeta; repeat run_step Hne; reflexivity.
Qed.

Lemma case_check_holding (password : string) (w : Store.world)
    (rf rc : Store.ref) (st : acc) :
  rf <> rc ->
  Store.case_check password rf rc (score st) (Store.holding w rf rc st)
  = (score (check_case password st),
     Store.holding w rf rc (check_case password st)).
Proof.
  intros Hne. unfold Store.case_check, check_case.
  destruct (has_case password); cbv zeta; repeat run_step Hne; reflexivity.
Qed.

Lemma digit_check_holding (password : string) (w : Store.world)
    (rf rc : Store.ref) (st : acc) :
  rf <> rc ->
  Store.digit_check password rf rc (score st) (Store.holding w rf rc st)
  = (score (check_digit password st),
     Store.holding w rf rc (check_digit password st)).
Proof.
  intros Hne. unfold Store.digit_check, check_digit.
  destruct (has_digit password); cbv zeta; repeat run_step Hne; reflexivity.
Qed.

Lemma special_check_holding (password : string) (w : Store.world)
    (rf rc : Store.ref) (st : acc) :
  rf <> rc ->
  Store.special_check password rf rc (score st) (Store.holding w rf rc st)
  = (score (check_special password st),
     Store.holding w rf rc (check_special password st)).
Proof.
  intros Hne. unfold Store.special_check, check_special.
  destruct (has_special password); cbv zeta; repeat run_step Hne; reflexivity.
Qed.

Lemma patterns_check_holding (password : string) (w : Store.world)
    (rf rc : Store.ref) (st : acc) :
  rf <> rc ->
  Store.patterns_check password rf rc (score st) (Store.holding w rf rc st)
  = (score (check_patterns password st),
     Store.holding w rf rc (check_patterns password st)).
Proof.
  intros Hne.
  unfold Store.patterns_check, check_patterns, check_repeated, check_sequential.
  destruct (has_sequential password), (has_repeated password); cbv zeta;
    unfold Store.seq, Store.pure;
    repeat (first [ rewrite setitem_holding
                  | rewrite append_holding by exact Hne ]; cbv beta iota);
    reflexivity.
Qed.

Lemma common_check_holding (password : string) (w : Store.world)
    (rf rc : Store.ref) (st : acc) :
  rf <> rc ->
  Store.common_check password rf rc (score st) (Store.holding w rf rc st)
  = (score (check_common password st),
     Store.holding w rf rc (check_common password st)).
Proof.
  intros Hne. unfold Store.common_check, check_common.
  destruct (is_common password); cbv zeta; repeat run_step Hne; reflexivity.
Qed.

Lemma fresh_refs (w : Store.world) :
  let rf := fresh (dom (Store.heap w)) in
  let rc := fresh (dom (<[rf := Store.OList []]> (Store.heap w))) in
  Store.heap w !! rf = None /\ Store.heap w !! rc = None /\ rf <> rc.
Proof.
  intros rf rc.
  assert (Hf : rf ∉ dom (Store.heap w)) by apply is_fresh.
  assert (Hc : rc ∉ dom (<[rf := Store.OList []]> (Store.heap w))) by apply is_fresh.
  rewrite dom_insert_L in Hc.
  apply not_elem_of_union in Hc. destruct Hc as [Hc1 Hc2].
  apply not_elem_of_singleton_1 in Hc1.
  split; [apply not_elem_of_dom_1, Hf|].
  split; [apply not_elem_of_dom_1, Hc2 | congruence].
Qed.

(** The body on the heap computes what the value-level evaluator computes:
    it returns the score, the rating, the message and the colour of
    [Evaluator.check_password_strength], and leaves its feedback list and
    its criteria map in two new objects. *)
Lemma check_password_strength_holding (password : string) (w : Store.world) :
  let rf := fresh (dom (Store.heap w)) in
  let rc := fresh (dom (<[rf := Store.OList []]> (Store.heap w))) in
  let e := check_password_strength password in
  Store.check_password_strength password w
  = (Store.Result (ev_score e) (ev_strength e) (ev_message e) rf rc (ev_color e),
     Store.holding w rf rc (after_common password)).
Proof.
  intros rf rc e.
  destruct (fresh_refs w) as (_ & _ & Hne). fold rf rc in Hne.
  unfold Store.check_password_strength.
  unfold Store.seq at 1 2. unfold Store.new_list, Store.new_dict, Store.new_object.
  cbn [Store.heap Store.random_state Store.screen].
  fold rf. fold rc.
  change (Store.World (<[rc := Store.ODict ∅]> (<[rf := Store.OList []]> (Store.heap w)))
            (Store.random_state w) (Store.screen w))
    with (Store.holding w rf rc init).
  change 0%Q with (score init) at 1.
  erewrite seq_run by (apply length_check_holding; exact Hne).
  erewrite seq_run by (apply case_check_holding; exact Hne).
  erewrite seq_run by (apply digit_check_holding; exact Hne).
  erewrite seq_run by (apply special_check_holding; exact Hne).
  erewrite seq_run by (apply patterns_check_holding; exact Hne).
  erewrite seq_run by (apply common_check_holding; exact Hne).
  unfold e, check_password_strength, after_common, after_patterns, after_composition.
  cbv zeta. destruct (rate _) as [[strength message] color]. reflexivity.
Qed.

Lemma holding_subseteq (w : Store.world) (rf rc : Store.ref) (st : acc) :
  Store.heap w !! rf = None -> Store.heap w !! rc = None -> rf <> rc ->
  Store.heap w ⊆ Store.heap (Store.holding w rf rc st).
Proof.
  intros Hf Hc Hne. unfold Store.holding. cbn [Store.heap].
  transitivity (<[rf := Store.OList (feedback st)]> (Store.heap w)).
  - apply insert_subseteq, Hf.
  - apply insert_subseteq. rewrite lookup_insert_ne by exact Hne. exact Hc.
Qed.

Lemma read_holding (w : Store.world) (rf rc : Store.ref) (st : acc)
    (n : Z) (strength message color : string) :
  rf <> rc ->
  Store.read (Store.holding w rf rc st)
             (Store.Result n strength message rf rc color)
  = Some (Evaluation n strength message (feedback st) (checks st) color).
Proof.
  intros Hne. unfold Store.read, Store.holding.
  cbn [Store.heap Store.r_feedback Store.r_checks Store.r_score
       Store.r_strength Store.r_message Store.r_color].
  rewrite lookup_insert_ne by congruence. rewrite !lookup_insert_eq. reflexivity.
Qed.

Lemma read_check_password_strength (password : string) (w : Store.world) :
  let c := Store.check_password_strength password w in
  Store.read (snd c) (fst c) = Some (check_password_strength password).
Proof.
  intros c. unfold c. rewrite check_password_strength_holding. cbn [fst snd].
  destruct (fresh_refs w) as (_ & _ & Hne).
  rewrite read_holding by exact Hne.
  rewrite <- ev_feedback_eq, <- ev_checks_eq.
  destruct (check_password_strength password). reflexivity.
Qed.

Lemma read_weaken (w w' : Store.world) (r : Store.result) (e : evaluation) :
  Store.read w r = Some e -> Store.heap w ⊆ Store.heap w' ->
  Store.read w' r = Some e.
Proof.
  unfold Store.read. intros Hr Hsub.
  destruct (Store.heap w !! Store.r_feedback r) as [[fb|]|] eqn:Hf; try discriminate Hr.
  destruct (Store.heap w !! Store.r_checks r) as [[|ck]|] eqn:Hc; try discriminate Hr.
  rewrite (lookup_weaken _ _ _ _ Hf Hsub), (lookup_weaken _ _ _ _ Hc Hsub).
  exact Hr.
Qed.

(** C9: the evaluator is pure and deterministic.  A call draws nothing
    from the random source, shows nothing and changes no object that was
    there before it; the feedback list and the criteria map it returns are
    two new objects.  Unpacked, the returned tuple is the value of
    [Evaluator.check_password_strength] on the password, so two calls on the
    same password, in whatever worlds, return the same score, strength,
    message, feedback in the same order, criteria and colour; and a later
    call leaves the result of an earlier one as it was. *)
Theorem check_password_strength_pure (password : string) (w w' : Store.world) :
  let c := Store.check_password_strength password w in
  let c' := Store.check_password_strength password w' in
  Store.random_state (snd c) = Store.random_state w /\
  Store.screen (snd c) = Store.screen w /\
  Store.heap w ⊆ Store.heap (snd c) /\
  Store.heap w !! Store.r_feedback (fst c) = None /\
  Store.heap w !! Store.r_checks (fst c) = None /\
  Store.r_feedback (fst c) <> Store.r_checks (fst c) /\
  Store.read (snd c) (fst c) = Some (check_password_strength password) /\
  Store.read (snd c') (fst c') = Store.read (snd c) (fst c) /\
  (Store.heap (snd c) ⊆ Store.heap w' ->
     Store.read (snd c') (fst c) = Store.read (snd c) (fst c)).
Proof.
  intros c c'.
  pose proof (read_check_password_strength password w) as Hr.
  pose proof (read_check_password_strength password w') as Hr'.
  fold c in Hr. fold c' in Hr'. cbv zeta in Hr, Hr'.
  assert (Hsub' : Store.heap w' ⊆ Store.heap (snd c')).
  { unfold c'. rewrite check_password_strength_holding. cbn [snd].
    destruct (fresh_refs w') as (Hf & Hc & Hne). apply holding_subseteq; assumption. }
  unfold c. rewrite check_password_strength_holding. cbn [fst snd].
  unfold c in Hr. rewrite check_password_strength_holding in Hr. cbn [fst snd] in Hr.
  destruct (fresh_refs w) as (Hf & Hc & Hne).
  cbn [Store.holding Store.random_state Store.screen Store.r_feedback Store.r_checks].
  split; [reflexivity|]. split; [reflexivity|].
  split; [apply (holding_subseteq w _ _ _ Hf Hc Hne)|].
  split; [exact Hf|]. split; [exact Hc|]. split; [exact Hne|].
  split; [exact Hr|]. split; [rewrite Hr; exact Hr'|].
  intros Hsub. rewrite Hr. apply (read_weaken _ _ _ _ Hr).
  transitivity (Store.heap w'); [exact Hsub | exact Hsub'].
Qed.

(** ** The random source and the shuffle *)

Lemma bind_run {A B : Type} (m : M A) (k : A -> M B) (g : tape) :
  bind m k g = k (fst (m g)) (snd (m g)).
Proof. unfold bind. destruct (m g). reflexivity. Qed.

Lemma randbelow_lt (n : nat) (g : tape) :
  (0 < n)%nat -> (fst (randbelow n g) < n)%nat.
Proof. intros Hn. unfold randbelow. cbn [fst]. apply Nat.mod_upper_bound. lia. Qed.

Lemma get_in (s : string) (i : nat) :
  (i < String.length s)%nat ->
  exists c : ascii, String.get i s = Some c /\ In c (list_ascii_of_string s).
Proof.
  revert i. induction s as [|a s IH]; intros i Hi; simpl in Hi; [lia|].
  destruct i as [|i]; simpl.
  - exists a. auto.
  - destruct (IH i) as (c & Hc & Hin); [lia|]. exists c. auto.
Qed.

Lemma choice_in (seq : string) (g : tape) :
  (0 < String.length seq)%nat ->
  In (fst (choice seq g)) (list_ascii_of_string seq).
Proof.
  intros Hn. unfold choice. rewrite bind_run. unfold ret. cbn [fst].
  destruct (get_in seq (fst (randbelow (String.length seq) g)))
    as (c & -> & Hin); [apply randbelow_lt, Hn | exact Hin].
Qed.

Lemma swap_perm (i j : nat) (x : list ascii) : swap i j x ≡ₚ x.
Proof.
  unfold swap. destruct (x !! i) as [a|] eqn:Hi; [|reflexivity].
  destruct (x !! j) as [b|] eqn:Hj; [|reflexivity].
  apply Permutation_insert_swap; assumption.
Qed.

Lemma shuffle_from_perm (i : nat) (x : list ascii) (g : tape) :
  fst (shuffle_from i x g) ≡ₚ x.
Proof.
  revert x g. induction i as [|i IH]; intros x g; [reflexivity|].
  cbn [shuffle_from]. rewrite bind_run, IH. apply swap_perm.
Qed.

Lemma shuffle_perm (x : list ascii) (g : tape) : fst (shuffle x g) ≡ₚ x.
Proof. apply shuffle_from_perm. Qed.

Lemma extend_choice_spec (n : nat) (all_chars : string)
    (password : list ascii) (g : tape) :
  (0 < String.length all_chars)%nat ->
  exists fill : list ascii,
    fst (extend_choice n all_chars password g) = (password ++ fill)%list /\
    List.length fill = n /\
    Forall (fun c => In c (list_ascii_of_string all_chars)) fill.
Proof.
  intros Hn. revert password g.
  induction n as [|n IH]; intros password g.
  - exists []. rewrite app_nil_r. repeat split. constructor.
  - cbn [extend_choice]. rewrite bind_run.
    destruct (IH (password ++ [fst (choice all_chars g)])%list
                 (snd (choice all_chars g))) as (fill & -> & Hlen & Hall).
    exists (fst (choice all_chars g) :: fill).
    rewrite <- app_assoc. split; [reflexivity|]. split; [simpl; lia|].
    constructor; [apply choice_in, Hn | exact Hall].
Qed.

Lemma length_list_ascii_of_string (s : string) :
  List.length (list_ascii_of_string s) = String.length s.
Proof. induction s as [|a s IH]; simpl; [reflexivity | rewrite IH; reflexivity]. Qed.

(** ** What the generator returns *)

Lemma pool_lower (c : ascii) :
  In c (list_ascii_of_string ascii_lowercase) -> class_lower c = true.
Proof.
  intros Hin.
  assert (H : forallb class_lower (list_ascii_of_string ascii_lowercase) = true)
    by reflexivity.
  rewrite forallb_forall in H. exact (H c Hin).
Qed.

Lemma pool_upper (c : ascii) :
  In c (list_ascii_of_string ascii_uppercase) -> class_upper c = true.
Proof.
  intros Hin.
  assert (H : forallb class_upper (list_ascii_of_string ascii_uppercase) = true)
    by reflexivity.
  rewrite forallb_forall in H. exact (H c Hin).
Qed.

Lemma pool_digit (c : ascii) :
  In c (list_ascii_of_string digits) -> class_digit c = true.
Proof.
  intros Hin.
  assert (H : forallb class_digit (list_ascii_of_string digits) = true)
    by reflexivity.
  rewrite forallb_forall in H. exact (H c Hin).
Qed.

Lemma pool_special (c : ascii) :
  In c (list_ascii_of_string special_chars) -> class_special c = true.
Proof.
  intros Hin.
  assert (H : forallb class_special (list_ascii_of_string special_chars) = true)
    by reflexivity.
  rewrite forallb_forall in H. exact (H c Hin).
Qed.

(** The password of [generate_strong_password] is a rearrangement of one
    character of each of the four pools followed by the random fill. *)
Lemma generate_strong_password_spec (length : Z) (g : tape) :
  exists (c1 c2 c3 c4 : ascii) (fill : list ascii),
    class_lower c1 = true /\ class_upper c2 = true /\
    class_digit c3 = true /\ class_special c4 = true /\
    List.length fill = Z.to_nat (clamped_length length - 4) /\
    list_ascii_of_string (fst (generate_strong_password length g))
      ≡ₚ ([c1; c2; c3; c4] ++ fill)%list.
Proof.
  unfold generate_strong_password, clamped_length.
  rewrite !bind_run. unfold ret at 1. cbn [fst].
  rewrite list_ascii_of_string_of_list_ascii.
  set (g1 := snd (choice ascii_lowercase g)).
  set (g2 := snd (choice ascii_uppercase g1)).
  set (g3 := snd (choice digits g2)).
  set (g4 := snd (choice special_chars g3)).
  set (c1 := fst (choice ascii_lowercase g)).
  set (c2 := fst (choice ascii_uppercase g1)).
  set (c3 := fst (choice digits g2)).
  set (c4 := fst (choice special_chars g3)).
  set (n := Z.to_nat ((if (length <? 8)%Z then 12%Z else length) - 4)).
  set (all_chars := ascii_lowercase +:+ ascii_uppercase +:+ digits +:+ special_chars).
  destruct (extend_choice_spec n all_chars [c1; c2; c3; c4] g4)
    as (fill & Hfill & Hlen & _); [vm_compute; lia|].
  exists c1, c2, c3, c4, fill.
  split; [apply pool_lower, choice_in; vm_compute; lia|].
  split; [apply pool_upper, choice_in; vm_compute; lia|].
  split; [apply pool_digit, choice_in; vm_compute; lia|].
  split; [apply pool_special, choice_in; vm_compute; lia|].
  split; [exact Hlen|].
  rewrite shuffle_perm, Hfill. reflexivity.
Qed.

(** The special-free branch of [main] likewise, with three pools and no
    clamp on the length. *)
Lemma generate_without_special_spec (length : Z) (g : tape) :
  exists (c1 c2 c3 : ascii) (fill : list ascii),
    class_lower c1 = true /\ class_upper c2 = true /\ class_digit c3 = true /\
    List.length fill = Z.to_nat (length - 3) /\
    list_ascii_of_string (fst (generate_without_special length g))
      ≡ₚ ([c1; c2; c3] ++ fill)%list.
Proof.
  unfold generate_without_special.
  rewrite !bind_run. unfold ret at 1. cbn [fst].
  rewrite list_ascii_of_string_of_list_ascii.
  set (g1 := snd (choice ascii_lowercase g)).
  set (g2 := snd (choice ascii_uppercase g1)).
  set (g3 := snd (choice digits g2)).
  set (c1 := fst (choice ascii_lowercase g)).
  set (c2 := fst (choice ascii_uppercase g1)).
  set (c3 := fst (choice digits g2)).
  set (all_chars := ascii_lowercase +:+ ascii_uppercase +:+ digits).
  destruct (extend_choice_spec (Z.to_nat (length - 3)) all_chars [c1; c2; c3] g3)
    as (fill & Hfill & Hlen & _); [vm_compute; lia|].
  exists c1, c2, c3, fill.
  split; [apply pool_lower, choice_in; vm_compute; lia|].
  split; [apply pool_upper, choice_in; vm_compute; lia|].
  split; [apply pool_digit, choice_in; vm_compute; lia|].
  split; [exact Hlen|].
  rewrite shuffle_perm, Hfill. reflexivity.
Qed.

Lemma contains_perm (cls : ascii -> bool) (s : string) (l : list ascii) (c : ascii) :
  list_ascii_of_string s ≡ₚ l -> In c l -> cls c = true -> contains cls s.
Proof.
  intros Hp Hin Hc. exists c. split; [|exact Hc].
  apply (Permutation_in c (Permutation_sym Hp) Hin).
Qed.

Lemma length_perm (s : string) (l : list ascii) :
  list_ascii_of_string s ≡ₚ l -> String.length s = List.length l.
Proof.
  intros Hp. rewrite <- length_list_ascii_of_string. apply Permutation_length, Hp.
Qed.

Lemma generate_strong_password_composition (length : Z) (g : tape) :
  let s := fst (generate_strong_password length g) in
  contains class_lower s /\ contains class_upper s /\
  contains class_digit s /\ contains class_special s /\
  Z.of_nat (String.length s) = clamped_length length.
Proof.
  intros s.
  destruct (generate_strong_password_spec length g)
    as (c1 & c2 & c3 & c4 & fill & H1 & H2 & H3 & H4 & Hlen & Hp).
  fold s in Hp.
  split; [apply (contains_perm _ _ _ c1 Hp); [simpl; auto | exact H1]|].
  split; [apply (contains_perm _ _ _ c2 Hp); [simpl; auto | exact H2]|].
  split; [apply (contains_perm _ _ _ c3 Hp); [simpl; auto | exact H3]|].
  split; [apply (contains_perm _ _ _ c4 Hp); [simpl; auto | exact H4]|].
  rewrite (length_perm _ _ Hp), length_app, Hlen. cbn [List.length].
  unfold clamped_length. destruct (length <? 8)%Z eqn:E; [reflexivity|].
  apply Z.ltb_ge in E. lia.
Qed.

Lemma generate_without_special_composition (length : Z) (g : tape) :
  let s := fst (generate_without_special length g) in
  contains class_lower s /\ contains class_upper s /\ contains class_digit s /\
  Z.of_nat (String.length s) = Z.max length 3.
Proof.
  intros s.
  destruct (generate_without_special_spec length g)
    as (c1 & c2 & c3 & fill & H1 & H2 & H3 & Hlen & Hp).
  fold s in Hp.
  split; [apply (contains_perm _ _ _ c1 Hp); [simpl; auto | exact H1]|].
  split; [apply (contains_perm _ _ _ c2 Hp); [simpl; auto | exact H2]|].
  split; [apply (contains_perm _ _ _ c3 Hp); [simpl; auto | exact H3]|].
  rewrite (length_perm _ _ Hp), length_app, Hlen. cbn [List.length]. lia.
Qed.

(** C1: whatever the requested length and the outcome of the random
    source, the output has a lowercase letter, an uppercase letter, a digit
    and, when special characters are requested, a special character; on
    every length a branch can be run on, any integer for
    [generate_strong_password] and the slider's 8 to 30 for the special-free
    branch of [main], its length is the clamped requested length. *)
Theorem generate_composition_and_length
    (length : Z) (include_special : bool) (g : tape) :
  let s := fst (generate length include_special g) in
  contains class_lower s /\ contains class_upper s /\ contains class_digit s /\
  (include_special = true -> contains class_special s) /\
  (receivable length include_special = true ->
     Z.of_nat (String.length s) = clamped_length length).
Proof.
  unfold generate, receivable, slider_value. destruct include_special.
  - destruct (generate_strong_password_composition length g)
      as (Hl & Hu & Hd & Hs & Hlen).
    cbv zeta. auto 6.
  - destruct (generate_without_special_composition length g)
      as (Hl & Hu & Hd & Hlen).
    cbv zeta. split; [exact Hl|]. split; [exact Hu|]. split; [exact Hd|].
    split; [discriminate|]. cbn [orb]. intros [H8 _]%andb_true_iff.
    apply Z.leb_le in H8.
    rewrite Hlen. unfold clamped_length.
    destruct (length <? 8)%Z eqn:E; [apply Z.ltb_lt in E|]; lia.
Qed.

Lemma generate_composition_and_length_witness :
  let s := fst (generate 16 true (tape_of [3; 1; 4; 1; 5; 9; 2; 6])) in
  contains class_special s /\ Z.of_nat (String.length s) = 16%Z.
Proof.
  destruct (generate_composition_and_length 16 true (tape_of [3; 1; 4; 1; 5; 9; 2; 6]))
    as (_ & _ & _ & Hs & Hlen).
  split; [apply Hs; reflexivity | apply Hlen; reflexivity].
Defined.



(** ** Generated passwords under the evaluator *)

Lemma special_fixed_by_lower (c : ascii) :
  class_special c = true -> lower_char c = c.
Proof.
  unfold class_special. rewrite existsb_exists.
  intros (x & Hin & ->%Ascii.eqb_eq).
  repeat (destruct Hin as [<- | Hin]; [reflexivity|]). destruct Hin.
Qed.

Lemma lower_keeps_special (s : string) :
  search_class class_special s = true ->
  search_class class_special (lower s) = true.
Proof.
  induction s as [|a s IH]; [discriminate|].
  cbn [lower search_class]. rewrite !orb_true_iff.
  intros [Ha | Hs]; [left | right; exact (IH Hs)].
  rewrite (special_fixed_by_lower a Ha). exact Ha.
Qed.

Lemma special_not_common (password : string) :
  has_special password = true -> is_common password = false.
Proof.
  intros Hs%lower_keeps_special.
  apply (not_true_iff _ _ (is_common_iff password)). intros Hin.
  repeat (destruct Hin as [Heq | Hin];
          [rewrite <- Heq in Hs; vm_compute in Hs; discriminate Hs|]).
  destruct Hin.
Qed.

(** C8: for a requested length of at least 12 with special characters, the
    generated password is rated Moderate or Strong, whatever the random
    source produces. *)
Theorem generated_at_least_moderate (length : Z) (g : tape) :
  (12 <= length)%Z ->
  let e := check_password_strength (fst (generate length true g)) in
  ev_strength e = "Moderate" \/ ev_strength e = "Strong".
Proof.
  intros Hlen e. unfold generate in e.
  destruct (generate_strong_password_composition length g)
    as (Hl & Hu & Hd & Hs & Hn).
  cbv zeta in Hl, Hu, Hd, Hs, Hn.
  set (password := fst (generate_strong_password length g)) in *.
  assert (H12 : long_enough 12 password = true).
  { apply long_enough_iff. unfold clamped_length in Hn.
    destruct (length <? 8)%Z eqn:E; [apply Z.ltb_lt in E|]; lia. }
  assert (Hcase : has_case password = true) by (apply has_case_iff; auto).
  assert (Hdigit : has_digit password = true) by (apply search_class_iff, Hd).
  assert (Hspecial : has_special password = true) by (apply search_class_iff, Hs).
  assert (Hc : is_common password = false) by (apply special_not_common, Hspecial).
  pose proof (ev_rate_eq password) as Hrate. fold e in Hrate. cbv zeta in Hrate.
  assert (He : ev_strength e = fst (fst (rate (raw_score password))))
    by (rewrite <- Hrate; reflexivity).
  rewrite He. clear He Hrate e.
  unfold_checks. rewrite H12, Hcase, Hdigit, Hspecial, Hc.
  destruct (has_sequential password), (has_repeated password);
    vm_compute; auto.
Qed.

(** A run of the generator whose fill repeats a character: the password is
    rated Moderate, not below. *)
Lemma generated_at_least_moderate_witness :
  ev_strength (check_password_strength (fst (generate 12 true (tape_of [])))) = "Moderate"
  \/ ev_strength (check_password_strength (fst (generate 12 true (tape_of [])))) = "Strong".
Proof. apply (generated_at_least_moderate 12). lia. Defined.

(** * Further properties of the evaluator *)

(** ** The criteria map and the feedback list in one piece *)

Lemma checks_check_length (password : string) (st : acc) :
  checks (check_length password st) = <["length" := length_status password]> (checks st).
Proof.
  unfold check_length, length_status.
  destruct (long_enough 12 password), (long_enough 8 password); reflexivity.
Qed.

Lemma checks_check_case (password : string) (st : acc) :
  checks (check_case password st) = <["case" := status_of (has_case password)]> (checks st).
Proof. unfold check_case. destruct (has_case password); reflexivity. Qed.

Lemma checks_check_digit (password : string) (st : acc) :
  checks (check_digit password st) = <["digit" := status_of (has_digit password)]> (checks st).
Proof. unfold check_digit. destruct (has_digit password); reflexivity. Qed.

Lemma checks_check_special (password : string) (st : acc) :
  checks (check_special password st)
  = <["special" := status_of (has_special password)]> (checks st).
Proof. unfold check_special. destruct (has_special password); reflexivity. Qed.

Lemma checks_check_patterns (password : string) (st : acc) :
  checks (check_patterns password st)
  = <["no_patterns" :=
        status_of (negb (has_sequential password || has_repeated password))]> (checks st).
Proof.
  unfold check_patterns, check_repeated, check_sequential.
  destruct (has_sequential password), (has_repeated password);
    cbn [checks set_check add_score append_feedback status_of negb orb];
    rewrite ?insert_insert_eq; reflexivity.
Qed.

Lemma checks_check_common (password : string) (st : acc) :
  checks (check_common password st)
  = <["not_common" := status_of (negb (is_common password))]> (checks st).
Proof. unfold check_common. destruct (is_common password); reflexivity. Qed.

Lemma ev_checks_closed_form (password : string) :
  ev_checks (check_password_strength password) = checks_closed_form password.
Proof.
  rewrite ev_checks_eq. unfold after_common, after_patterns, after_composition.
  rewrite checks_check_common, checks_check_patterns, checks_check_special,
    checks_check_digit, checks_check_case, checks_check_length.
  reflexivity.
Qed.

Lemma feedback_check_length (password : string) (st : acc) :
  feedback (check_length password st)
  = (feedback st
     ++ when (negb (long_enough 12 password) && long_enough 8 password) fb_length_12
     ++ when (negb (long_enough 12 password) && negb (long_enough 8 password))
          fb_length_8)%list.
Proof.
  unfold check_length.
  destruct (long_enough 12 password), (long_enough 8 password);
    cbn; rewrite ?app_nil_r; reflexivity.
Qed.

Lemma feedback_check_case (password : string) (st : acc) :
  feedback (check_case password st)
  = (feedback st ++ when (negb (has_case password)) fb_case)%list.
Proof. unfold check_case. destruct (has_case password); cbn; rewrite ?app_nil_r; reflexivity. Qed.

Lemma feedback_check_digit (password : string) (st : acc) :
  feedback (check_digit password st)
  = (feedback st ++ when (negb (has_digit password)) fb_digit)%list.
Proof. unfold check_digit. destruct (has_digit password); cbn; rewrite ?app_nil_r; reflexivity. Qed.

Lemma feedback_check_special (password : string) (st : acc) :
  feedback (check_special password st)
  = (feedback st ++ when (negb (has_special password)) fb_special)%list.
Proof.
  unfold check_special. destruct (has_special password); cbn; rewrite ?app_nil_r; reflexivity.
Qed.

Lemma feedback_check_patterns (password : string) (st : acc) :
  feedback (check_patterns password st)
  = (feedback st ++ when (has_sequential password) fb_sequential
     ++ when (has_repeated password) fb_repeated)%list.
Proof.
  unfold check_patterns, check_repeated, check_sequential.
  destruct (has_sequential password), (has_repeated password);
    cbn; rewrite ?app_nil_r, <- ?app_assoc; reflexivity.
Qed.

Lemma feedback_check_common (password : string) (st : acc) :
  feedback (check_common password st)
  = (feedback st ++ when (is_common password) fb_common)%list.
Proof.
  unfold check_common. destruct (is_common password); cbn; rewrite ?app_nil_r; reflexivity.
Qed.

Lemma ev_feedback_closed_form (password : string) :
  ev_feedback (check_password_strength password) = feedback_closed_form password.
Proof.
  rewrite ev_feedback_eq. unfold after_common, after_patterns, after_composition.
  rewrite feedback_check_common, feedback_check_patterns, feedback_check_special,
    feedback_check_digit, feedback_check_case, feedback_check_length.
  unfold feedback_closed_form. cbn [feedback init app].
  rewrite <- !app_assoc. reflexivity.
Qed.

Lemma false_iff_not (b : bool) (P : Prop) : (b = true <-> P) -> (b = false <-> ~ P).
Proof.
  intros HP. destruct b; split; intros H; try reflexivity; try discriminate.
  - exfalso. apply H, HP. reflexivity.
  - intros HP'. apply HP in HP'. discriminate.
Qed.

Lemma ev_strength_eq (password : string) :
  ev_strength (check_password_strength password)
  = fst (fst (rate (raw_score password))).
Proof.
  pose proof (ev_rate_eq password) as H. cbv zeta in H. rewrite <- H. reflexivity.
Qed.

(** ** The scores that can be shown *)

(** X1: the raw score lies between 0 and 4 and the returned score is one
    of 0, 12, 25, 37, 50, 62, 75, 87 and 100. *)
Theorem score_values (password : string) :
  (0 <= raw_score password)%Q /\ (raw_score password <= 4)%Q /\
  In (ev_score (check_password_strength password))
     [0; 12; 25; 37; 50; 62; 75; 87; 100]%Z.
Proof.
  rewrite ev_score_eq. split; [apply clamp_score_nonneg|].
  rewrite <- Qle_bool_iff.
  unfold_checks. case_checks password; vm_compute;
    (split; [reflexivity | repeat (first [left; reflexivity | right])]).
Qed.

Lemma lookup_closed_form (password : string) :
  let c := checks_closed_form password in
  c !! "length" = Some (length_status password) /\
  c !! "case" = Some (status_of (has_case password)) /\
  c !! "digit" = Some (status_of (has_digit password)) /\
  c !! "special" = Some (status_of (has_special password)) /\
  c !! "no_patterns"
    = Some (status_of (negb (has_sequential password || has_repeated password))) /\
  c !! "not_common" = Some (status_of (negb (is_common password))).
Proof.
  unfold checks_closed_form. cbv zeta.
  repeat split;
    repeat (first [apply lookup_insert_eq | rewrite lookup_insert_ne by discriminate]).
Qed.

Lemma status_of_true (b : bool) : Some (status_of b) = Some CTrue <-> b = true.
Proof. destruct b; split; intros H; first [reflexivity | discriminate H]. Qed.

(** ** When a password is rated Strong *)

Lemma strong_iff_conditions (password : string) :
  ev_strength (check_password_strength password) = "Strong" <->
  long_enough 12 password = true /\ has_case password = true /\
  has_digit password = true /\ has_special password = true /\
  has_sequential password = false /\ has_repeated password = false /\
  is_common password = false.
Proof.
  rewrite ev_strength_eq. unfold_checks. case_checks password; vm_compute;
    (split;
     [ intros H; first [discriminate H | repeat split]
     | intros (H1 & H2 & H3 & H4 & H5 & H6 & H7);
       first [reflexivity | discriminate] ]).
Qed.

(** X2: a password is rated Strong exactly when it has at least 12
    characters, an uppercase and a lowercase letter and a special
    character, the digit check has stored True, its lower-casing has no
    sequential window, no character other than the line feed occurs three
    times in a row, and its lower-casing is not a common password. *)
Theorem strong_characterisation (password : string) :
  let e := check_password_strength password in
  ev_strength e = "Strong" <->
  (12 <= String.length password)%nat /\
  (contains class_upper password /\ contains class_lower password) /\
  ev_checks e !! "digit" = Some CTrue /\
  contains class_special password /\
  ~ (exists w : string, In w sequential_windows /\ occurs w (lower password)) /\
  ~ (exists c : ascii, c <> line_feed /\ occurs (run3 c) password) /\
  ~ In (lower password) common_passwords.
Proof.
  intros e. unfold e. rewrite strong_iff_conditions.
  rewrite ev_checks_closed_form.
  destruct (lookup_closed_form password) as (_ & _ & Hd & _).
  rewrite Hd, status_of_true.
  rewrite long_enough_iff, has_case_iff.
  unfold has_special. rewrite !search_class_iff.
  rewrite (false_iff_not _ _ (has_sequential_iff password)).
  rewrite (false_iff_not _ _ (has_repeated_iff password)).
  rewrite (false_iff_not _ _ (is_common_iff password)).
  reflexivity.
Qed.

(** ** What the length costs *)

(** X3: a password of fewer than 12 characters scores at most 87 and one
    of fewer than 8 characters at most 75; neither is rated Strong. *)
Theorem short_password_capped (password : string) :
  let e := check_password_strength password in
  ((String.length password < 12)%nat ->
     (ev_score e <= 87)%Z /\ ev_strength e <> "Strong") /\
  ((String.length password < 8)%nat -> (ev_score e <= 75)%Z).
Proof.
  intros e. unfold e. split.
  - intros Hlen.
    assert (H12 : long_enough 12 password = false)
      by (apply Nat.leb_gt; exact Hlen).
    split.
    + rewrite ev_score_eq. apply Z.leb_le. unfold_checks. rewrite H12.
      destruct (long_enough 8 password), (has_case password), (has_digit password),
        (has_special password), (has_sequential password), (has_repeated password),
        (is_common password); vm_compute; reflexivity.
    + rewrite strong_iff_conditions. intros (H & _). congruence.
  - intros Hlen.
    assert (H12 : long_enough 12 password = false)
      by (apply Nat.leb_gt; lia).
    assert (H8 : long_enough 8 password = false)
      by (apply Nat.leb_gt; exact Hlen).
    rewrite ev_score_eq. apply Z.leb_le. unfold_checks. rewrite H12, H8.
    destruct (has_case password), (has_digit password),
      (has_special password), (has_sequential password), (has_repeated password),
      (is_common password); vm_compute; reflexivity.
Qed.

(** Four characters of four kinds: capped at 75, and rated Moderate. *)
Lemma short_password_capped_witness :
  (ev_score (check_password_strength "aA1!") <= 87)%Z /\
  ev_strength (check_password_strength "aA1!") <> "Strong" /\
  (ev_score (check_password_strength "aA1!") <= 75)%Z.
Proof.
  destruct (short_password_capped "aA1!") as (H12 & H8).
  destruct H12 as (Hs & Hn); [simpl; lia|].
  split; [exact Hs|]. split; [exact Hn|]. apply H8. simpl. lia.
Defined.

(** ** The keys and the values of the criteria map *)

(** X4: the criteria map has exactly the six keys length, case, digit,
    special, no_patterns and not_common, whatever the password; the value
    "Partial" is stored under length only. *)
Theorem criteria_keys_complete (password : string) :
  let c := ev_checks (check_password_strength password) in
  dom c = list_to_set criteria_keys /\
  (forall key : string, c !! key = Some CPartial -> key = "length").
Proof.
  intros c. unfold c. rewrite ev_checks_closed_form. unfold checks_closed_form.
  split.
  - rewrite !dom_insert_L, dom_empty_L. unfold criteria_keys. cbn [list_to_set].
    set_solver.
  - intros key.
    repeat (rewrite lookup_insert; case_decide;
            [first [ subst key; intros _; reflexivity
                   | unfold status_of;
                     match goal with |- context [if ?b then _ else _] =>
                       destruct b end; discriminate ] |]).
    rewrite lookup_empty. discriminate.
Qed.

(** X5: the values of the four positive criteria.  length is True from 12
    characters, "Partial" from 8 to 11 and False below 8; case is True
    exactly when the password has an uppercase and a lowercase letter,
    special exactly when it has one of the special characters; digit is
    True whenever the password has one of 0 to 9. *)
Theorem positive_criteria (password : string) :
  let c := ev_checks (check_password_strength password) in
  (c !! "length" = Some CTrue <-> (12 <= String.length password)%nat) /\
  (c !! "length" = Some CPartial <->
     (8 <= String.length password)%nat /\ (String.length password < 12)%nat) /\
  (c !! "length" = Some CFalse <-> (String.length password < 8)%nat) /\
  (c !! "case" = Some CTrue <->
     contains class_upper password /\ contains class_lower password) /\
  (c !! "special" = Some CTrue <-> contains class_special password) /\
  (contains class_digit password -> c !! "digit" = Some CTrue).
Proof.
  intros c. unfold c. rewrite ev_checks_closed_form.
  destruct (lookup_closed_form password) as (Hl & Hc & Hd & Hs & _ & _).
  rewrite Hl, Hc, Hd, Hs, !status_of_true, has_case_iff.
  unfold has_digit, has_special. rewrite !search_class_iff.
  unfold length_status.
  pose proof (long_enough_iff 12 password) as H12.
  pose proof (long_enough_iff 8 password) as H8.
  destruct (long_enough 12 password), (long_enough 8 password);
    repeat split; intros; try discriminate; try reflexivity;
    try tauto; try lia;
    try (assert (12 <= String.length password)%nat by (apply H12; reflexivity); lia);
    try (assert (8 <= String.length password)%nat by (apply H8; reflexivity); lia);
    try (exfalso;
         assert (true = true -> False) as Hf
           by (intros _;
               first [ assert (false = true) as Hx by (apply H12; lia)
                     | assert (false = true) as Hx by (apply H8; lia) ];
               discriminate Hx);
         exact (Hf eq_refl)).
Qed.

(** ** The feedback list *)

Lemma when_sublist (b : bool) (msg : string) : when b msg `sublist_of` [msg].
Proof. destruct b; [reflexivity | apply sublist_nil_l]. Qed.

Lemma feedback_order_NoDup : NoDup feedback_order.
Proof.
  apply (bool_decide_unpack _). vm_compute. exact I.
Qed.

(** X6: the feedback messages come in the order of the checks and none
    comes twice: the list is a sublist of the eight messages in check
    order, and the two length messages never come together. *)
Theorem feedback_in_check_order (password : string) :
  let fb := ev_feedback (check_password_strength password) in
  fb `sublist_of` feedback_order /\ NoDup fb /\
  ~ (In fb_length_12 fb /\ In fb_length_8 fb).
Proof.
  intros fb.
  assert (Hsub : fb `sublist_of` feedback_order).
  { unfold fb. rewrite ev_feedback_closed_form.
    unfold feedback_closed_form, feedback_order.
    change [fb_length_12; fb_length_8; fb_case; fb_digit; fb_special;
            fb_sequential; fb_repeated; fb_common]
      with ([fb_length_12] ++ [fb_length_8] ++ [fb_case] ++ [fb_digit]
            ++ [fb_special] ++ [fb_sequential] ++ [fb_repeated] ++ [fb_common])%list.
    repeat (apply sublist_app; [apply when_sublist|]). apply when_sublist. }
  split; [exact Hsub|].
  split; [exact (sublist_NoDup _ _ feedback_order_NoDup Hsub)|].
  unfold fb. rewrite ev_feedback_closed_form. unfold feedback_closed_form.
  destruct (long_enough 12 password), (long_enough 8 password), (has_case password),
    (has_digit password), (has_special password), (has_sequential password),
    (has_repeated password), (is_common password);
    cbn [when negb andb app]; intros [H12 H8];
    cbn [In] in H12, H8;
    repeat (match goal with
            | H : _ \/ _ |- _ => destruct H as [H | H]
            | H : False |- _ => destruct H
            | H : @eq string _ _ |- _ => vm_compute in H; discriminate H
            end).
Qed.

(** X7: the feedback list is empty exactly when every value of the
    criteria map is True. *)
Theorem no_feedback_iff_all_criteria_true (password : string) :
  let e := check_password_strength password in
  ev_feedback e = [] <->
  (forall (key : string) (v : check_value), ev_checks e !! key = Some v -> v = CTrue).
Proof.
  intros e. unfold e.
  rewrite ev_feedback_closed_form, ev_checks_closed_form.
  destruct (lookup_closed_form password) as (Hl & Hc & Hd & Hs & Hp & Hn).
  split.
  - intros Hfb key v. unfold checks_closed_form.
    unfold feedback_closed_form in Hfb.
    destruct (long_enough 12 password) eqn:E12, (long_enough 8 password) eqn:E8,
      (has_case password), (has_digit password), (has_special password),
      (has_sequential password), (has_repeated password), (is_common password);
      try discriminate Hfb;
      unfold length_status; rewrite E12;
      cbn [status_of negb orb];
      repeat (rewrite lookup_insert; case_decide; [congruence|]);
      rewrite lookup_empty; discriminate.
  - intros Hall.
    pose proof (Hall _ _ Hl) as Il. pose proof (Hall _ _ Hc) as Ic.
    pose proof (Hall _ _ Hd) as Id. pose proof (Hall _ _ Hs) as Is.
    pose proof (Hall _ _ Hp) as Ip. pose proof (Hall _ _ Hn) as In'.
    unfold feedback_closed_form. unfold length_status in Il.
    destruct (long_enough 12 password), (long_enough 8 password),
      (has_case password), (has_digit password), (has_special password),
      (has_sequential password), (has_repeated password), (is_common password);
      try discriminate; reflexivity.
Qed.

Lemma in_when (m : string) (b : bool) (msg : string) :
  In m (when b msg) <-> b = true /\ msg = m.
Proof.
  destruct b; simpl; split.
  - intros [H | []]. split; [reflexivity | exact H].
  - intros [_ H]. left. exact H.
  - intros [].
  - intros [H _]. discriminate H.
Qed.

Lemma in_feedback_closed_form (password m : string) :
  In m (feedback_closed_form password) <->
  (negb (long_enough 12 password) && long_enough 8 password = true
     /\ fb_length_12 = m) \/
  (negb (long_enough 12 password) && negb (long_enough 8 password) = true
     /\ fb_length_8 = m) \/
  (negb (has_case password) = true /\ fb_case = m) \/
  (negb (has_digit password) = true /\ fb_digit = m) \/
  (negb (has_special password) = true /\ fb_special = m) \/
  (has_sequential password = true /\ fb_sequential = m) \/
  (has_repeated password = true /\ fb_repeated = m) \/
  (is_common password = true /\ fb_common = m).
Proof.
  unfold feedback_closed_form. rewrite !in_app_iff, !in_when. reflexivity.
Qed.

Ltac wrong_message :=
  match goal with
  | H : _ /\ @eq string _ _ |- _ =>
      let E := fresh in destruct H as [_ E]; vm_compute in E; discriminate E
  end.

Ltac right_message Hb :=
  repeat first [ split; [exact Hb | reflexivity]
               | left; split; [exact Hb | reflexivity]
               | right ].

Ltac message_iff :=
  rewrite in_feedback_closed_form; split;
  [ intros H;
    repeat (destruct H as [H | H]; [first [exact (proj1 H) | wrong_message]|]);
    first [exact (proj1 H) | wrong_message]
  | let Hb := fresh in intros Hb; right_message Hb ].

Lemma in_feedback_length_12 (password : string) :
  In fb_length_12 (feedback_closed_form password) <->
  negb (long_enough 12 password) && long_enough 8 password = true.
Proof. message_iff. Qed.

Lemma in_feedback_length_8 (password : string) :
  In fb_length_8 (feedback_closed_form password) <->
  negb (long_enough 12 password) && negb (long_enough 8 password) = true.
Proof. message_iff. Qed.

Lemma in_feedback_case (password : string) :
  In fb_case (feedback_closed_form password) <-> negb (has_case password) = true.
Proof. message_iff. Qed.

Lemma in_feedback_digit (password : string) :
  In fb_digit (feedback_closed_form password) <-> negb (has_digit password) = true.
Proof. message_iff. Qed.

Lemma in_feedback_special (password : string) :
  In fb_special (feedback_closed_form password) <->
  negb (has_special password) = true.
Proof. message_iff. Qed.

Lemma in_feedback_sequential (password : string) :
  In fb_sequential (feedback_closed_form password) <->
  has_sequential password = true.
Proof. message_iff. Qed.

Lemma in_feedback_repeated (password : string) :
  In fb_repeated (feedback_closed_form password) <-> has_repeated password = true.
Proof. message_iff. Qed.

Lemma in_feedback_common (password : string) :
  In fb_common (feedback_closed_form password) <-> is_common password = true.
Proof. message_iff. Qed.

(** X8: each feedback message is in the list exactly when its check
    fails: the 12-character advice from 8 to 11 characters, the 8-character
    demand below 8, the case and special-character messages when the class
    is missing, the digit message when the digit check has stored False,
    which never happens to a password with one of 0 to 9, the sequence
    message when the lower-cased password has a sequential window, the
    repetition message when a character other than the line feed comes
    three times in a row, and the common-password message when the
    lower-cased password is in the list. *)
Theorem feedback_messages (password : string) :
  let fb := ev_feedback (check_password_strength password) in
  (In fb_length_12 fb <->
     (8 <= String.length password)%nat /\ (String.length password < 12)%nat) /\
  (In fb_length_8 fb <-> (String.length password < 8)%nat) /\
  (In fb_case fb <->
     ~ (contains class_upper password /\ contains class_lower password)) /\
  (In fb_digit fb <->
     ev_checks (check_password_strength password) !! "digit" = Some CFalse) /\
  (In fb_digit fb -> ~ contains class_digit password) /\
  (In fb_special fb <-> ~ contains class_special password) /\
  (In fb_sequential fb <->
     exists w : string, In w sequential_windows /\ occurs w (lower password)) /\
  (In fb_repeated fb <->
     exists c : ascii, c <> line_feed /\ occurs (run3 c) password) /\
  (In fb_common fb <-> In (lower password) common_passwords).
Proof.
  intros fb. unfold fb.
  assert (Hdigit : ev_checks (check_password_strength password) !! "digit"
                   = Some CFalse <-> has_digit password = false).
  { rewrite ev_checks_closed_form.
    destruct (lookup_closed_form password) as (_ & _ & Hd & _). rewrite Hd.
    destruct (has_digit password); split; intros H;
      first [discriminate H | reflexivity]. }
  rewrite Hdigit. clear Hdigit. rewrite ev_feedback_closed_form.
  rewrite in_feedback_length_12, in_feedback_length_8, in_feedback_case,
    !in_feedback_digit, in_feedback_special, in_feedback_sequential,
    in_feedback_repeated, in_feedback_common.
  rewrite !andb_true_iff, !negb_true_iff.
  rewrite (false_iff_not _ _ (long_enough_iff 12 password)).
  rewrite (false_iff_not _ _ (long_enough_iff 8 password)).
  rewrite (false_iff_not _ _ (has_case_iff password)).
  rewrite (false_iff_not _ _ (search_class_iff class_digit password)).
  rewrite (false_iff_not _ _ (search_class_iff class_special password)).
  rewrite long_enough_iff, has_sequential_iff, has_repeated_iff, is_common_iff.
  split; [lia|]. split; [lia|]. repeat split; tauto.
Qed.

(** X9: the two negative criteria.  no_patterns is False exactly when the
    lower-cased password has a sequential window or a character other than
    the line feed comes three times in a row in the password as typed, and
    True otherwise; not_common is False exactly when the lower-cased
    password is in the list of common passwords, and True otherwise. *)
Theorem negative_criteria (password : string) :
  let c := ev_checks (check_password_strength password) in
  let sequential :=
    exists w : string, In w sequential_windows /\ occurs w (lower password) in
  let repeated :=
    exists ch : ascii, ch <> line_feed /\ occurs (run3 ch) password in
  (c !! "no_patterns" = Some CFalse <-> sequential \/ repeated) /\
  (c !! "no_patterns" = Some CTrue <-> ~ (sequential \/ repeated)) /\
  (c !! "not_common" = Some CFalse <-> In (lower password) common_passwords) /\
  (c !! "not_common" = Some CTrue <-> ~ In (lower password) common_passwords).
Proof.
  intros c sequential repeated. unfold c, sequential, repeated.
  rewrite ev_checks_closed_form.
  destruct (lookup_closed_form password) as (_ & _ & _ & _ & Hp & Hn).
  rewrite Hp, Hn.
  rewrite <- has_sequential_iff, <- has_repeated_iff, <- is_common_iff.
  rewrite <- orb_true_iff.
  destruct (has_sequential password || has_repeated password),
    (is_common password); cbn [status_of negb];
    repeat split; intros; try discriminate; try reflexivity; try tauto;
    try congruence.
Qed.

(** ** The rating against the score that is shown *)

Lemma verdict_cases (password : string) :
  let e := check_password_strength password in
  (ev_score e = 100%Z /\ ev_strength e = "Strong" /\ ev_feedback e = []) \/
  ((ev_score e = 75%Z \/ ev_score e = 87%Z) /\ ev_strength e = "Moderate"
     /\ ev_feedback e <> []) \/
  ((0 <= ev_score e)%Z /\ (ev_score e <= 62)%Z /\ ev_strength e = "Weak"
     /\ ev_feedback e <> []).
Proof.
  intros e. unfold e. rewrite ev_strength_eq, ev_score_eq, ev_feedback_eq.
  unfold_checks. case_checks password; vm_compute;
    first [ left; repeat split; reflexivity
          | right; left; split; [first [left; reflexivity | right; reflexivity]|];
            split; [reflexivity | discriminate]
          | right; right; split; [discriminate|];
            split; [discriminate|]; split; [reflexivity | discriminate] ].
Qed.

(** X10: the rating can be read off the returned score: Strong exactly at
    100, Moderate exactly at 75 and 87, Weak exactly at 62 and below; the
    message and the colour go with the rating. *)
Theorem rating_from_shown_score (password : string) :
  let e := check_password_strength password in
  (ev_strength e = "Strong" <-> ev_score e = 100%Z) /\
  (ev_strength e = "Moderate" <-> ev_score e = 75%Z \/ ev_score e = 87%Z) /\
  (ev_strength e = "Weak" <-> (ev_score e <= 62)%Z) /\
  (ev_strength e = "Strong" -> ev_message e = msg_strong /\ ev_color e = "green") /\
  (ev_strength e = "Moderate" ->
     ev_message e = msg_moderate /\ ev_color e = "orange") /\
  (ev_strength e = "Weak" -> ev_message e = msg_weak /\ ev_color e = "red").
Proof.
  intros e.
  pose proof (verdict_cases password) as Hv. fold e in Hv. cbv zeta in Hv.
  pose proof (ev_rate_eq password) as Hr. fold e in Hr. cbv zeta in Hr.
  pose proof (rate_cases (raw_score password)) as Hc.
  split; [|split; [|split]].
  - destruct Hv as [(Hs & Ht & _) | [(Hs & Ht & _) | (_ & Hs & Ht & _)]];
      rewrite Ht; split; intros H; first [discriminate H | reflexivity | lia].
  - destruct Hv as [(Hs & Ht & _) | [(Hs & Ht & _) | (_ & Hs & Ht & _)]];
      rewrite Ht; split; intros H; first [discriminate H | reflexivity | lia | exact Hs].
  - destruct Hv as [(Hs & Ht & _) | [(Hs & Ht & _) | (_ & Hs & Ht & _)]];
      rewrite Ht; split; intros H; first [discriminate H | reflexivity | lia | exact Hs].
  - destruct (rate (raw_score password)) as [[s m] c] eqn:E.
    injection Hr as Hs Hm Hcol. rewrite Hs, Hm, Hcol.
    unfold rate in E.
    destruct (Qle_bool 4 (raw_score password));
      [|destruct (Qle_bool 3 (raw_score password))];
      injection E as <- <- <-;
      (split; [|split]); intros H;
      first [discriminate H | split; reflexivity].
Qed.

(** * The result blocks of [main] *)

(** ** The check tab *)

Lemma in_criteria_lines (c : gmap string check_value) (x : st_call) :
  In x (criteria_lines c) -> exists body : string, x = st_markdown body false.
Proof.
  unfold criteria_lines. rewrite in_map_iff.
  intros ((key & item) & <- & _). unfold criterion_line. cbn [snd].
  destruct (snd item); eauto.
Qed.

Lemma in_suggestions (fb : list string) (x : st_call) :
  In x (suggestions fb) <->
  fb <> [] /\
  (x = st_subheader "Improvement Suggestions" \/
   exists m : string, In m fb /\ x = st_markdown m false).
Proof.
  destruct fb as [|m fb]; cbn [suggestions].
  - split; [intros [] | intros [H _]; congruence].
  - cbn [In]. rewrite in_map_iff. split.
    + intros [H | (m' & H & Hin)]; (split; [discriminate|]); [left | right]; eauto.
    + intros (_ & [H | (m' & Hin & H)]); [left | right]; eauto.
Qed.

Lemma in_closing_message (score : Z) (x : st_call) :
  In x (closing_message score) <->
  ((90 <= score)%Z /\ (x = st_balloons \/ x = st_success msg_excellent)) \/
  ((score <= 30)%Z /\ x = st_error msg_needs_improvement).
Proof.
  unfold closing_message.
  destruct (90 <=? score)%Z eqn:E90; [|destruct (score <=? 30)%Z eqn:E30];
    try apply Z.leb_le in E90; try apply Z.leb_gt in E90;
    try apply Z.leb_le in E30; try apply Z.leb_gt in E30; cbn [In]; split.
  - intros [H | [H | []]]; left; auto.
  - intros [(_ & [H | H]) | (H & _)]; [auto | auto | lia].
  - intros [H | []]. right. auto.
  - intros [(H & _) | (_ & H)]; [lia | auto].
  - intros [].
  - intros [(H & _) | (H & _)]; lia.
Qed.

Lemma in_main_check_tab (a : ascii) (s : string) (x : st_call) :
  let e := check_password_strength (String a s) in
  In x (main_check_tab (String a s)) <->
  (x = st_markdown ("### Password Strength: **:" +:+ ev_color e +:+ "["
                    +:+ ev_strength e +:+ "]**") false \/
   x = st_progress (ev_score e) \/
   x = st_markdown ("**Score:** " +:+ str (ev_score e) +:+ "/100") false \/
   x = st_subheader "Security Criteria") \/
  In x (criteria_lines (ev_checks e)) \/
  In x (suggestions (ev_feedback e)) \/
  In x (closing_message (ev_score e)).
Proof.
  intros e. unfold main_check_tab. fold e. rewrite !in_app_iff. cbn [In].
  split.
  - intros [[H | [H | [H | [H | []]]]] | H]; auto 6.
  - intros [[H | [H | [H | H]]] | H]; auto 6.
Qed.

Ltac not_in_fixed_part :=
  match goal with
  | H : _ \/ _ |- _ => destruct H as [H | H]; not_in_fixed_part
  | H : @eq st_call _ _ |- _ => discriminate H
  | H : In _ (criteria_lines _) |- _ =>
      apply in_criteria_lines in H; destruct H as (? & H); discriminate H
  end.

(** X11: for a non-empty password the check tab releases the balloons
    and shows the success message exactly when the password is rated Strong,
    and shows the list of improvement suggestions exactly when it is not. *)
Theorem check_tab_celebration (password : string) :
  password <> "" ->
  let e := check_password_strength password in
  let shown := main_check_tab password in
  (In st_balloons shown <-> ev_strength e = "Strong") /\
  (In (st_success msg_excellent) shown <-> ev_strength e = "Strong") /\
  (In (st_subheader "Improvement Suggestions") shown <-> ev_strength e <> "Strong").
Proof.
  intros Hne e shown. unfold shown.
  destruct password as [|a s]; [congruence|].
  pose proof (verdict_cases (String a s)) as Hv. fold e in Hv. cbv zeta in Hv.
  pose proof (in_main_check_tab a s) as Hin. fold e in Hin. cbv zeta in Hin.
  rewrite !Hin, !in_suggestions, !in_closing_message. clear Hin.
  split; [|split].
  - split.
    + intros [H | [H | [(_ & [H | (m & _ & H)]) | [(H90 & _) | (_ & H)]]]];
        try not_in_fixed_part; try discriminate H.
      destruct Hv as [(_ & Ht & _) | [(Hs & _) | (_ & Hs & _)]]; [exact Ht | lia | lia].
    + intros Ht. right. right. right. left. split; [|left; reflexivity].
      destruct Hv as [(Hs & _) | [(_ & Ht' & _) | (_ & _ & Ht' & _)]];
        [lia | congruence | congruence].
  - split.
    + intros [H | [H | [(_ & [H | (m & _ & H)]) | [(H90 & _) | (_ & H)]]]];
        try not_in_fixed_part; try discriminate H.
      destruct Hv as [(_ & Ht & _) | [(Hs & _) | (_ & Hs & _)]]; [exact Ht | lia | lia].
    + intros Ht. right. right. right. left. split; [|right; reflexivity].
      destruct Hv as [(Hs & _) | [(_ & Ht' & _) | (_ & _ & Ht' & _)]];
        [lia | congruence | congruence].
  - split.
    + intros [H | [H | [(Hfb & _) | [(_ & [H | H]) | (_ & H)]]]];
        try not_in_fixed_part; try discriminate H.
      destruct Hv as [(_ & _ & Hf) | [(_ & Ht & _) | (_ & _ & Ht & _)]];
        [congruence | rewrite Ht; discriminate | rewrite Ht; discriminate].
    + intros Ht. right. right. left. split; [|left; reflexivity].
      destruct Hv as [(_ & Ht' & _) | [(_ & _ & Hf) | (_ & _ & _ & Hf)]];
        [congruence | exact Hf | exact Hf].
Qed.

(** The balloons for a password that meets every criterion. *)
Lemma check_tab_celebration_witness :
  In st_balloons (main_check_tab "Gx7!mQ2#vK9&").
Proof.
  apply (check_tab_celebration "Gx7!mQ2#vK9&"); [discriminate | reflexivity].
Defined.

(** X12: for a non-empty password the check tab shows the error banner
    exactly when the returned score is at most 30, that is 0, 12 or 25; the
    password is then rated Weak and no balloons are released.  The progress
    bar is given the returned score, between 0 and 100. *)
Theorem check_tab_error_banner (password : string) :
  password <> "" ->
  let e := check_password_strength password in
  let shown := main_check_tab password in
  (In (st_error msg_needs_improvement) shown <-> (ev_score e <= 30)%Z) /\
  (In (st_error msg_needs_improvement) shown ->
     ev_strength e = "Weak" /\ ~ In st_balloons shown) /\
  (forall v : Z, In (st_progress v) shown <-> v = ev_score e) /\
  (0 <= ev_score e)%Z /\ (ev_score e <= 100)%Z.
Proof.
  intros Hne e shown. unfold shown.
  destruct password as [|a s]; [congruence|].
  pose proof (verdict_cases (String a s)) as Hv. fold e in Hv. cbv zeta in Hv.
  pose proof (in_main_check_tab a s) as Hin. fold e in Hin. cbv zeta in Hin.
  assert (Herr : In (st_error msg_needs_improvement) (main_check_tab (String a s))
                 <-> (ev_score e <= 30)%Z).
  { rewrite Hin, in_suggestions, in_closing_message. split.
    - intros [H | [H | [(_ & [H | (m & _ & H)]) | [(_ & [H | H]) | (H & _)]]]];
        try not_in_fixed_part; try discriminate H. exact H.
    - intros H. right. right. right. right. split; [exact H | reflexivity]. }
  split; [exact Herr|]. split; [|split].
  - intros H%Herr. split.
    + destruct Hv as [(Hs & _) | [(Hs & _) | (_ & _ & Ht & _)]]; [lia | lia | exact Ht].
    + rewrite Hin, in_suggestions, in_closing_message.
      intros [H' | [H' | [(_ & [H' | (m & _ & H')]) | [(H90 & _) | (_ & H')]]]];
        try not_in_fixed_part; try discriminate H'. lia.
  - intros v. rewrite Hin, in_suggestions, in_closing_message. split.
    + intros [[H | [H | [H | H]]]
             | [H | [(_ & [H | (m & _ & H)]) | [(_ & [H | H]) | (_ & H)]]]];
        try discriminate H; try not_in_fixed_part.
      injection H as ->. reflexivity.
    + intros ->. left. right. left. reflexivity.
  - destruct Hv as [(Hs & _) | [(Hs & _) | (H0 & Hs & _)]]; lia.
Qed.

(** The error banner for a password from the list of common ones. *)
Lemma check_tab_error_banner_witness :
  In (st_error msg_needs_improvement) (main_check_tab "password").
Proof.
  apply (check_tab_error_banner "password"); [discriminate | vm_compute; discriminate].
Defined.

(** * Further properties of the generator *)

(** ** The characters of a generated password *)

Lemma in_pool (pool sub : string) (c : ascii) :
  forallb (fun x => existsb (Ascii.eqb x) (list_ascii_of_string pool))
          (list_ascii_of_string sub) = true ->
  In c (list_ascii_of_string sub) -> In c (list_ascii_of_string pool).
Proof.
  intros H Hin. rewrite forallb_forall in H. specialize (H c Hin).
  rewrite existsb_exists in H. destruct H as (x & Hx & ->%Ascii.eqb_eq). exact Hx.
Qed.

Lemma generate_strong_password_members (length : Z) (g : tape) :
  exists l : list ascii,
    list_ascii_of_string (fst (generate_strong_password length g)) ≡ₚ l /\
    Forall (fun c => In c (list_ascii_of_string (all_chars true))) l.
Proof.
  unfold generate_strong_password.
  rewrite !bind_run. unfold ret at 1. cbn [fst].
  rewrite list_ascii_of_string_of_list_ascii.
  set (g1 := snd (choice ascii_lowercase g)).
  set (g2 := snd (choice ascii_uppercase g1)).
  set (g3 := snd (choice digits g2)).
  set (g4 := snd (choice special_chars g3)).
  set (c1 := fst (choice ascii_lowercase g)).
  set (c2 := fst (choice ascii_uppercase g1)).
  set (c3 := fst (choice digits g2)).
  set (c4 := fst (choice special_chars g3)).
  set (n := Z.to_nat ((if (length <? 8)%Z then 12%Z else length) - 4)).
  change (ascii_lowercase +:+ ascii_uppercase +:+ digits +:+ special_chars)
    with (all_chars true).
  destruct (extend_choice_spec n (all_chars true) [c1; c2; c3; c4] g4)
    as (fill & Hfill & _ & Hall); [vm_compute; lia|].
  exists ([c1; c2; c3; c4] ++ fill)%list.
  split; [rewrite shuffle_perm, Hfill; reflexivity|].
  apply Forall_app. split; [|exact Hall].
  repeat apply Forall_cons_2; [| | | |constructor].
  - apply (in_pool _ ascii_lowercase); [reflexivity|]. apply choice_in. vm_compute. lia.
  - apply (in_pool _ ascii_uppercase); [reflexivity|]. apply choice_in. vm_compute. lia.
  - apply (in_pool _ digits); [reflexivity|]. apply choice_in. vm_compute. lia.
  - apply (in_pool _ special_chars); [reflexivity|]. apply choice_in. vm_compute. lia.
Qed.

Lemma generate_without_special_members (length : Z) (g : tape) :
  exists l : list ascii,
    list_ascii_of_string (fst (generate_without_special length g)) ≡ₚ l /\
    Forall (fun c => In c (list_ascii_of_string (all_chars false))) l.
Proof.
  unfold generate_without_special.
  rewrite !bind_run. unfold ret at 1. cbn [fst].
  rewrite list_ascii_of_string_of_list_ascii.
  set (g1 := snd (choice ascii_lowercase g)).
  set (g2 := snd (choice ascii_uppercase g1)).
  set (g3 := snd (choice digits g2)).
  set (c1 := fst (choice ascii_lowercase g)).
  set (c2 := fst (choice ascii_uppercase g1)).
  set (c3 := fst (choice digits g2)).
  change (ascii_lowercase +:+ ascii_uppercase +:+ digits) with (all_chars false).
  destruct (extend_choice_spec (Z.to_nat (length - 3)) (all_chars false) [c1; c2; c3] g3)
    as (fill & Hfill & _ & Hall); [vm_compute; lia|].
  exists ([c1; c2; c3] ++ fill)%list.
  split; [rewrite shuffle_perm, Hfill; reflexivity|].
  apply Forall_app. split; [|exact Hall].
  repeat apply Forall_cons_2; [| | |constructor].
  - apply (in_pool _ ascii_lowercase); [reflexivity|]. apply choice_in. vm_compute. lia.
  - apply (in_pool _ ascii_uppercase); [reflexivity|]. apply choice_in. vm_compute. lia.
  - apply (in_pool _ digits); [reflexivity|]. apply choice_in. vm_compute. lia.
Qed.

Lemma generate_members (length : Z) (include_special : bool) (g : tape) (c : ascii) :
  In c (list_ascii_of_string (fst (generate length include_special g))) ->
  In c (list_ascii_of_string (all_chars include_special)).
Proof.
  intros Hin. unfold generate in Hin. destruct include_special.
  - destruct (generate_strong_password_members length g) as (l & Hp & Hall).
    rewrite List.Forall_forall in Hall. apply Hall.
    exact (Permutation_in c Hp Hin).
  - destruct (generate_without_special_members length g) as (l & Hp & Hall).
    rewrite List.Forall_forall in Hall. apply Hall.
    exact (Permutation_in c Hp Hin).
Qed.

Lemma all_chars_classes (include_special : bool) (c : ascii) :
  In c (list_ascii_of_string (all_chars include_special)) ->
  (class_lower c || class_upper c || class_digit c
   || (include_special && class_special c) = true) /\
  (include_special = false -> class_special c = false).
Proof.
  intros Hin.
  assert (H : forallb (fun c =>
                (class_lower c || class_upper c || class_digit c
                 || (include_special && class_special c))
                && (include_special || negb (class_special c)))
              (list_ascii_of_string (all_chars include_special)) = true)
    by (destruct include_special; reflexivity).
  rewrite forallb_forall in H. specialize (H c Hin).
  apply andb_true_iff in H. destruct H as [H1 H2]. split; [exact H1|].
  intros ->. cbn [orb] in H2. apply negb_true_iff in H2. exact H2.
Qed.

(** X13: every character of a generated password comes from the pool in
    use: a lowercase letter, an uppercase letter, a digit or, when special
    characters are requested, one of the special characters.  Without them
    the password has no special character. *)
Theorem generated_characters (length : Z) (include_special : bool) (g : tape) :
  let s := fst (generate length include_special g) in
  Forall (fun c => In c (list_ascii_of_string (all_chars include_special)))
         (list_ascii_of_string s) /\
  Forall (fun c => class_lower c || class_upper c || class_digit c
                   || (include_special && class_special c) = true)
         (list_ascii_of_string s) /\
  (include_special = false -> ~ contains class_special s).
Proof.
  intros s. split; [|split].
  - apply List.Forall_forall. intros c Hin. exact (generate_members _ _ _ _ Hin).
  - apply List.Forall_forall. intros c Hin.
    apply (all_chars_classes include_special), (generate_members _ _ _ _ Hin).
  - intros Hf (c & Hin & Hc).
    apply generate_members, all_chars_classes in Hin. destruct Hin as [_ Hin].
    rewrite (Hin Hf) in Hc. discriminate Hc.
Qed.

(** ** Generated passwords under the evaluator, the other cases *)

Lemma generate_false_no_special (length : Z) (g : tape) :
  has_special (fst (generate length false g)) = false.
Proof.
  apply (not_true_iff _ _ (search_class_iff class_special _)).
  intros (c & Hin & Hc).
  apply generate_members, all_chars_classes in Hin. destruct Hin as [_ Hin].
  rewrite (Hin eq_refl) in Hc. discriminate Hc.
Qed.

Lemma generate_true_conditions (length : Z) (g : tape) :
  let s := fst (generate length true g) in
  long_enough 8 s = true /\ has_case s = true /\ has_digit s = true /\
  has_special s = true /\ is_common s = false /\
  ((length < 8)%Z \/ (12 <= length)%Z -> long_enough 12 s = true) /\
  ((8 <= length)%Z /\ (length < 12)%Z -> long_enough 12 s = false).
Proof.
  intros s. unfold s, generate.
  destruct (generate_strong_password_composition length g)
    as (Hl & Hu & Hd & Hs & Hn).
  cbv zeta in Hl, Hu, Hd, Hs, Hn.
  set (password := fst (generate_strong_password length g)) in *.
  assert (Hspecial : has_special password = true) by (apply search_class_iff, Hs).
  unfold clamped_length in Hn.
  split; [apply long_enough_iff; destruct (length <? 8)%Z eqn:E;
          [|apply Z.ltb_ge in E]; lia|].
  split; [apply has_case_iff; auto|].
  split; [apply search_class_iff, Hd|].
  split; [exact Hspecial|].
  split; [apply special_not_common, Hspecial|].
  split.
  - intros H. apply long_enough_iff.
    destruct (length <? 8)%Z eqn:E; [|apply Z.ltb_ge in E]; lia.
  - intros H. apply Nat.leb_gt.
    destruct (length <? 8)%Z eqn:E; [apply Z.ltb_lt in E|]; lia.
Qed.

(** X14: with special characters requested, whatever the length and the
    random source, the generated password has the criteria case, digit,
    special and not_common True and length not False, and scores at least
    62; for a length from 8 to 11 the length criterion is "Partial", the
    score is at most 87 and the rating is never Strong. *)
Theorem generated_with_special_criteria (length : Z) (g : tape) :
  let e := check_password_strength (fst (generate length true g)) in
  let c := ev_checks e in
  c !! "case" = Some CTrue /\ c !! "digit" = Some CTrue /\
  c !! "special" = Some CTrue /\ c !! "not_common" = Some CTrue /\
  c !! "length" <> Some CFalse /\
  (62 <= ev_score e)%Z /\
  ((8 <= length)%Z /\ (length < 12)%Z ->
     c !! "length" = Some CPartial /\ (ev_score e <= 87)%Z /\
     ev_strength e <> "Strong").
Proof.
  intros e c. unfold c, e.
  destruct (generate_true_conditions length g)
    as (H8 & Hcase & Hdigit & Hspecial & Hcommon & _ & H12).
  cbv zeta in H8, Hcase, Hdigit, Hspecial, Hcommon, H12.
  set (password := fst (generate length true g)) in *.
  rewrite ev_checks_closed_form.
  destruct (lookup_closed_form password) as (Ll & Lc & Ld & Ls & _ & Ln).
  rewrite Ll, Lc, Ld, Ls, Ln, Hcase, Hdigit, Hspecial, Hcommon.
  unfold length_status. rewrite H8.
  split; [reflexivity|]. split; [reflexivity|]. split; [reflexivity|].
  split; [reflexivity|].
  split; [destruct (long_enough 12 password); discriminate|].
  split.
  - rewrite ev_score_eq. apply Z.leb_le. unfold_checks.
    rewrite H8, Hcase, Hdigit, Hspecial, Hcommon.
    destruct (long_enough 12 password), (has_sequential password),
      (has_repeated password); vm_compute; reflexivity.
  - intros Hlen. specialize (H12 Hlen). rewrite H12.
    split; [reflexivity|]. split.
    + rewrite ev_score_eq. apply Z.leb_le. unfold_checks.
      rewrite H12, H8, Hcase, Hdigit, Hspecial, Hcommon.
      destruct (has_sequential password), (has_repeated password);
        vm_compute; reflexivity.
    + rewrite strong_iff_conditions. intros (H & _). congruence.
Qed.

(** X15: without special characters the generated password always fails
    the special criterion and gets its message; it is never rated Strong
    and scores at most 75, and for a length below 12 it is rated Weak. *)
Theorem generated_without_special_rating (length : Z) (g : tape) :
  let e := check_password_strength (fst (generate length false g)) in
  ev_checks e !! "special" = Some CFalse /\
  In fb_special (ev_feedback e) /\
  ev_strength e <> "Strong" /\
  (ev_score e <= 75)%Z /\
  ((length < 12)%Z -> ev_strength e = "Weak" /\ (ev_score e <= 62)%Z).
Proof.
  intros e. unfold e.
  pose proof (generate_false_no_special length g) as Hspecial.
  destruct (generate_without_special_composition length g) as (_ & _ & _ & Hn).
  cbv zeta in Hn. change (generate_without_special length g) with
    (generate length false g) in Hn.
  set (password := fst (generate length false g)) in *.
  split.
  { rewrite ev_checks_closed_form.
    destruct (lookup_closed_form password) as (_ & _ & _ & Ls & _).
    rewrite Ls, Hspecial. reflexivity. }
  split.
  { rewrite ev_feedback_closed_form, in_feedback_special, Hspecial. reflexivity. }
  split.
  { rewrite strong_iff_conditions. intros (_ & _ & _ & H & _). congruence. }
  split.
  { rewrite ev_score_eq. apply Z.leb_le. unfold_checks. rewrite Hspecial.
    destruct (long_enough 12 password), (long_enough 8 password),
      (has_case password), (has_digit password), (has_sequential password),
      (has_repeated password), (is_common password); vm_compute; reflexivity. }
  intros Hlen.
  assert (H12 : long_enough 12 password = false) by (apply Nat.leb_gt; lia).
  split.
  - rewrite ev_strength_eq. unfold_checks. rewrite Hspecial, H12.
    destruct (long_enough 8 password),
      (has_case password), (has_digit password), (has_sequential password),
      (has_repeated password), (is_common password); vm_compute; reflexivity.
  - rewrite ev_score_eq. apply Z.leb_le. unfold_checks. rewrite Hspecial, H12.
    destruct (long_enough 8 password),
      (has_case password), (has_digit password), (has_sequential password),
      (has_repeated password), (is_common password); vm_compute; reflexivity.
Qed.

(** ** The generate tab *)

(** X17: pressing the button shows four elements: the heading, the
    password between the two tags of the raw HTML block, the strength line
    of that same password, and the copy hint.  The raw HTML block is the
    only one, and no character of the password in it is an angle bracket or
    a quote. *)
Theorem generate_tab_block (length : Z) (include_special : bool) (g : tape) :
  let shown := fst (main_generate_tab length include_special g) in
  let s := fst (generate length include_special g) in
  let e := check_password_strength s in
  shown =
    [ st_markdown "### Your Generated Password:" false;
      st_markdown (div_open +:+ s +:+ div_close) true;
      st_markdown ("**Strength:** :" +:+ ev_color e +:+ "[" +:+ ev_strength e
                   +:+ "] (" +:+ str (ev_score e) +:+ "/100)") false;
      st_info "Click to select the password, then use Ctrl+C (or Cmd+C) to copy" ] /\
  (forall body : string,
     In (st_markdown body true) shown -> body = div_open +:+ s +:+ div_close) /\
  Forall (fun c => c <> "<"%char /\ c <> ">"%char /\ c <> "'"%char /\ c <> double_quote)
         (list_ascii_of_string s).
Proof.
  intros shown s e.
  assert (Hshown : shown =
    [ st_markdown "### Your Generated Password:" false;
      st_markdown (div_open +:+ s +:+ div_close) true;
      st_markdown ("**Strength:** :" +:+ ev_color e +:+ "[" +:+ ev_strength e
                   +:+ "] (" +:+ str (ev_score e) +:+ "/100)") false;
      st_info "Click to select the password, then use Ctrl+C (or Cmd+C) to copy" ]).
  { unfold shown, main_generate_tab, call_check_password_strength.
    rewrite !bind_run. reflexivity. }
  split; [exact Hshown|]. split.
  - intros body. rewrite Hshown. cbn [In].
    intros [H | [H | [H | [H | []]]]]; try discriminate H.
    injection H as <-. reflexivity.
  - apply List.Forall_forall. intros c Hin.
    apply generate_members in Hin.
    assert (H : forallb (fun c => negb (Ascii.eqb c "<") && negb (Ascii.eqb c ">")
                                  && negb (Ascii.eqb c "'") && negb (Ascii.eqb c double_quote))
                        (list_ascii_of_string (all_chars include_special)) = true)
      by (destruct include_special; reflexivity).
    rewrite forallb_forall in H. specialize (H c Hin).
    rewrite !andb_true_iff, !negb_true_iff, !Ascii.eqb_neq in H. tauto.
Qed.
